(** * codalab.lib.worksheet_util: the worksheet text form

    A shallow embedding of [worksheet_util.py]: the line grammars, the
    classifier [parse_worksheet_form], the directive expander
    [expand_worksheet_item_info], the renderer [get_worksheet_lines],
    [get_current_items] and the edit session [request_new_items],
    followed by the properties of the parse/render pair and of the
    session.

    The module is Python 2 code: a [str] is a byte string, modelled as a
    list of 8-bit characters, and the table of patterns is a dictionary
    that the classifier iterates in an order the source does not fix:
    that order is a parameter of the classifier ([visiting_order]). *)

From Stdlib Require Import Ascii String.
From stdpp Require Import base option list strings gmap.

Local Open Scope string_scope.
Local Open Scope nat_scope.
Local Open Scope list_scope.

(** ** Byte strings *)

Abbreviation str := (list ascii).

Coercion String.list_ascii_of_string : string >-> list.

Definition chr_eqb (a b : ascii) : bool := Ascii.eqb a b.

(** [str.isspace] for one byte in the C locale, which is also the class
    [\s] of [re] on byte strings: space, \t, \n, \v, \f, \r. *)
Definition isspace (c : ascii) : bool :=
  let n := nat_of_ascii c in
  (n =? 32) || ((9 <=? n) && (n <=? 13)).

Definition newline : ascii := ascii_of_nat 10.

Fixpoint lstrip (s : str) : str :=
  match s with
  | c :: s' => if isspace c then lstrip s' else s
  | [] => []
  end.

Definition rstrip (s : str) : str := reverse (lstrip (reverse s)).

(** [s.strip()] *)
Definition strip (s : str) : str := rstrip (lstrip s).

(** [s.startswith(p)], returning the rest of [s] *)
Fixpoint strip_prefix (p s : str) : option str :=
  match p, s with
  | [], _ => Some s
  | a :: p', b :: s' => if chr_eqb a b then strip_prefix p' s' else None
  | _ :: _, [] => None
  end.

(** ** Python values and exceptions *)

Inductive exn :=
| KeyError (key : string)
| TypeError
| AttributeError
| IndexError
| UsageError (msg : str).

Inductive result (A : Type) :=
| Ok (a : A)
| Raise (e : exn).
Arguments Ok {A} a.
Arguments Raise {A} e.

#[global] Instance result_ret : MRet result := λ A a, Ok a.
#[global] Instance result_bind : MBind result := λ A B f r,
  match r with
  | Ok a => f a
  | Raise e => Raise e
  end.

#[global] Instance result_fmap : FMap result := λ A B f r,
  match r with
  | Ok a => Ok (f a)
  | Raise e => Raise e
  end.

(** A value stored under a dictionary key: [None] or a [str]. *)
Inductive atom :=
| ANone
| AStr (s : str).

(** The values that travel in a worksheet item: [None], a [str], or a
    dictionary with string keys. *)
Inductive pyval :=
| PNone
| PStr (s : str)
| PDict (d : gmap string atom).

Definition atom_val (a : atom) : pyval :=
  match a with
  | ANone => PNone
  | AStr s => PStr s
  end.

(** ** The subset of [re] the module uses

    Patterns are kept as syntax trees; [m] lists every way a pattern can
    match from a state, in the order in which the backtracking engine of
    [re] tries them (greedy repetition first, alternatives left to
    right), so the first element is the match [re] reports. *)

Inductive cset :=
| CDot                (* .      *)
| CSpace              (* \s     *)
| CNot (c : ascii).   (* [^c]   *)

Inductive regex :=
| Bol                               (* ^        *)
| Eol                               (* $        *)
| Lit (w : str)                     (* literal text, escapes resolved *)
| Star (cs : cset)                  (* cs*      *)
| Plus (cs : cset)                  (* cs+      *)
| Group (n : nat) (r : regex)       (* ( r ), the n-th group *)
| Opt (r : regex)                   (* r?       *)
| Alt (r1 r2 : regex)               (* r1|r2    *)
| Seq (r1 r2 : regex).              (* r1 r2    *)

Infix "∙" := Seq (at level 65, right associativity).

Definition cset_mem (dotall : bool) (cs : cset) (c : ascii) : bool :=
  match cs with
  | CDot => dotall || negb (chr_eqb c newline)
  | CSpace => isspace c
  | CNot x => negb (chr_eqb c x)
  end.

Record mstate := MState {
  consumed : str;               (* the text matched so far *)
  remaining : str;              (* the text still ahead    *)
  caps : list (nat * str)       (* groups set so far, latest first *)
}.

(** All the ways of reading a run of characters satisfying [p] off the
    front of [s], longest first. *)
Fixpoint spans (p : ascii → bool) (s : str) : list (str * str) :=
  match s with
  | c :: s' =>
      if p c then ((λ wr, (c :: wr.1, wr.2)) <$> spans p s') ++ [([], s)]
      else [([], s)]
  | [] => [([], [])]
  end.

(** The same with at least one character. *)
Definition spans1 (p : ascii → bool) (s : str) : list (str * str) :=
  match s with
  | c :: s' => if p c then (λ wr, (c :: wr.1, wr.2)) <$> spans p s' else []
  | [] => []
  end.

Definition advance (st : mstate) (wr : str * str) : mstate :=
  MState (consumed st ++ wr.1) wr.2 (caps st).

Definition set_group (n : nat) (st0 st : mstate) : mstate :=
  MState (consumed st) (remaining st)
         ((n, drop (length (consumed st0)) (consumed st)) :: caps st).

(** [$] without MULTILINE: at the end, or before a final newline. *)
Definition at_end (s : str) : bool :=
  match s with
  | [] => true
  | [c] => chr_eqb c newline
  | _ => false
  end.

Fixpoint m (dotall : bool) (r : regex) (st : mstate) : list mstate :=
  match r with
  | Bol => match consumed st with [] => [st] | _ => [] end
  | Eol => if at_end (remaining st) then [st] else []
  | Lit w =>
      match strip_prefix w (remaining st) with
      | Some s' => [advance st (w, s')]
      | None => []
      end
  | Star cs => advance st <$> spans (cset_mem dotall cs) (remaining st)
  | Plus cs => advance st <$> spans1 (cset_mem dotall cs) (remaining st)
  | Group n r => set_group n st <$> m dotall r st
  | Opt r => m dotall r st ++ [st]
  | Alt r1 r2 => m dotall r1 st ++ m dotall r2 st
  | Seq r1 r2 => m dotall r1 st ≫= m dotall r2
  end.

Fixpoint ngroups (r : regex) : nat :=
  match r with
  | Group _ r => S (ngroups r)
  | Opt r => ngroups r
  | Alt r1 r2 | Seq r1 r2 => ngroups r1 + ngroups r2
  | _ => 0
  end.

(** [re.compile(pattern, flags)]; the only flag in use is [re.DOTALL]. *)
Record compiled := Compiled { pattern : regex; flag_dotall : bool }.

Definition re_compile (r : regex) : compiled := Compiled r false.
Definition re_compile_DOTALL (r : regex) : compiled := Compiled r true.

(** A match object: the number of groups of its pattern, [group(0)] and
    the groups that took part in the match. *)
Record match_obj := MatchObj {
  mo_ngroups : nat;
  mo_whole : str;
  mo_groups : list (nat * str)
}.

Fixpoint assoc (n : nat) (l : list (nat * str)) : option str :=
  match l with
  | [] => None
  | (k, w) :: l' => if decide (k = n) then Some w else assoc n l'
  end.

(** [regex.match(s)]: a match anchored at the start of [s], or [None]. *)
Definition re_match (c : compiled) (s : str) : option match_obj :=
  match m (flag_dotall c) (pattern c) (MState [] s []) with
  | st :: _ => Some (MatchObj (ngroups (pattern c)) (consumed st) (caps st))
  | [] => None
  end.

(** [match.group(k)] *)
Definition group (mo : match_obj) (k : nat) : result atom :=
  if decide (k = 0) then Ok (AStr (mo_whole mo))
  else if decide (k ≤ mo_ngroups mo) then
    Ok (match assoc k (mo_groups mo) with
        | Some w => AStr w
        | None => ANone
        end)
  else Raise IndexError.

(** ** The line grammars *)

(** BUNDLE_LINE_REGEX = "^(\[(.*)\])?\s*\{(.*)\}$" *)
Definition BUNDLE_LINE_REGEX : regex :=
  Bol ∙ Opt (Group 1 (Lit "[" ∙ Group 2 (Star CDot) ∙ Lit "]")) ∙
  Star CSpace ∙ Lit "{" ∙ Group 3 (Star CDot) ∙ Lit "}" ∙ Eol.

(** DIRECTIVE_PREFIX = "%" *)
Definition DIRECTIVE_PREFIX : regex := Lit "%".

(** BUNDLE_DISPLAY_DIRECTIVE = DIRECTIVE_PREFIX + " display (table|default|inline)" *)
Definition BUNDLE_DISPLAY_DIRECTIVE : regex :=
  DIRECTIVE_PREFIX ∙ Lit " display " ∙
  Group 1 (Alt (Lit "table") (Alt (Lit "default") (Lit "inline"))).

(** BUNDLE_DISPLAY_FIELD = DIRECTIVE_PREFIX + " ([^\:]+): (image|metadata)/(.*)" *)
Definition BUNDLE_DISPLAY_FIELD : regex :=
  DIRECTIVE_PREFIX ∙ Lit " " ∙ Group 1 (Plus (CNot ":")) ∙ Lit ": " ∙
  Group 2 (Alt (Lit "image") (Lit "metadata")) ∙ Lit "/" ∙
  Group 3 (Star CDot).

(** WORKSHEET_TITLE_FIELD = DIRECTIVE_PREFIX + "\s*title:\s*(.*)" *)
Definition WORKSHEET_TITLE_FIELD : regex :=
  DIRECTIVE_PREFIX ∙ Star CSpace ∙ Lit "title:" ∙ Star CSpace ∙
  Group 1 (Star CDot).

(** WORKSHEET_DESCRIPTION_FIELD = DIRECTIVE_PREFIX + "\s*description:\s*(.*)" *)
Definition WORKSHEET_DESCRIPTION_FIELD : regex :=
  DIRECTIVE_PREFIX ∙ Star CSpace ∙ Lit "description:" ∙ Star CSpace ∙
  Group 1 (Star CDot).

(** MATCH_DISPLAY_EXPR = re.compile(".*" + BUNDLE_DISPLAY_DIRECTIVE + ".*", re.DOTALL) *)
Definition MATCH_DISPLAY_EXPR : compiled :=
  re_compile_DOTALL (Star CDot ∙ BUNDLE_DISPLAY_DIRECTIVE ∙ Star CDot).

(** MATCH_FIELD_EXPR = re.compile(".*" + BUNDLE_DISPLAY_FIELD + ".*", re.DOTALL) *)
Definition MATCH_FIELD_EXPR : compiled :=
  re_compile_DOTALL (Star CDot ∙ BUNDLE_DISPLAY_FIELD ∙ Star CDot).

(** [pattern.match(value)] on a Python value: [re] refuses what is not a
    string. *)
Definition py_match (c : compiled) (value : pyval) : result (option match_obj) :=
  match value with
  | PStr s => Ok (re_match c s)
  | _ => Raise TypeError
  end.

(** ** expand_worksheet_item_info *)

Definition expand_worksheet_item_info (value : pyval) (type : str) : result pyval :=
  if decide (type = "directive") then
    let data : gmap string atom :=
      {[ "type" := AStr "directive"; "name" := ANone; "path" := ANone;
         "value" := ANone ]} in
    match_display ← py_match MATCH_DISPLAY_EXPR value;
    match match_display with
    | Some match_display =>
        g1 ← group match_display 1;
        g0 ← group match_display 0;
        Ok (PDict {[ "type" := AStr "directive"; "directive" := AStr "display";
                     "display" := g1; "markup" := g0 ]})
    | None =>
        match_field ← py_match MATCH_FIELD_EXPR value;
        match match_field with
        | Some match_field =>
            g2 ← group match_field 2;
            g1 ← group match_field 1;
            g3 ← group match_field 3;
            g0 ← group match_field 0;
            Ok (PDict {[ "type" := AStr "directive"; "directive" := g2;
                         "name" := g1; "path" := g3; "markup" := g0 ]})
        | None => Ok (PDict data)
        end
    end
  else Ok value.

(** ** get_worksheet_lines and get_current_items *)

(** An entry of [worksheet_info['items']]: [(bundle_info, value, type)],
    where [bundle_info] is [None] or the dictionary of a bundle. *)
Definition ws_item : Type := option (gmap string atom) * pyval * str.

Record worksheet_info := WorksheetInfo {
  ws_name : str;
  ws_items : list ws_item
}.

(** [d[key]] *)
Definition getitem (d : gmap string atom) (key : string) : result atom :=
  match d !! key with
  | Some a => Ok a
  | None => Raise (KeyError key)
  end.

(** [value[key]] on a Python value: only a dictionary can be indexed by a
    string. *)
Definition py_getitem (value : pyval) (key : string) : result pyval :=
  match value with
  | PDict d => atom_val <$> getitem d key
  | _ => Raise TypeError
  end.

Section Render.

(** What [str()] prints for a dictionary depends on the interpreter's
    hash order; it is left abstract. *)
Variable dict_repr : gmap string atom → str.

(** [str(value)], as ['%s' %] and [str.format] print a value *)
Definition py_str (value : pyval) : str :=
  match value with
  | PNone => "None"
  | PStr s => s
  | PDict d => dict_repr d
  end.

(** The lines one item yields. *)
Definition item_lines (it : ws_item) : result (list pyval) :=
  let '(bundle_info, value, type) := it in
  if decide (type = "directive") then
    markup ← py_getitem value "markup";
    Ok [markup]
  else if decide (type = "title" ∨ type = "description") then
    Ok [PStr ("% " ++ type ++ ": " ++ py_str value)]
  else
    match bundle_info with
    | None => Ok [value]
    | Some bundle_info =>
        let broken :=
          if decide (bundle_info !! "bundle_type" = None)
          then [PStr "// The following bundle reference is broken:"]
          else [] in
        uuid ← getitem bundle_info "uuid";
        Ok (broken ++
            [PStr ("[" ++ py_str value ++ "]{" ++ py_str (atom_val uuid) ++ "}")])
    end.

(** The generator, drained: every line it yields, or the exception that
    stops it. *)
Fixpoint get_worksheet_lines_items (items : list ws_item) : result (list pyval) :=
  match items with
  | [] => Ok []
  | it :: rest =>
      ls ← item_lines it;
      more ← get_worksheet_lines_items rest;
      Ok (ls ++ more)
  end.

Definition get_worksheet_lines (wi : worksheet_info) : result (list pyval) :=
  get_worksheet_lines_items (ws_items wi).

End Render.

(** [get_current_items]: the [(bundle_uuid, value, type)] triples of a
    worksheet. *)
Fixpoint get_current_items_loop (items : list ws_item)
    : result (list (pyval * pyval * str)) :=
  match items with
  | [] => Ok []
  | (bundle_info, value, type) :: rest =>
      it ← match bundle_info with
           | None => Ok (PNone, value, type)
           | Some bundle_info =>
               uuid ← getitem bundle_info "uuid";
               Ok (atom_val uuid, value, type)
           end;
      more ← get_current_items_loop rest;
      Ok (it :: more)
  end.

Definition get_current_items (wi : worksheet_info) :=
  get_current_items_loop (ws_items wi).

(** ** parse_worksheet_form *)

(** A parsed item [(bundle_uuid, value, type)]. *)
Definition item : Type := atom * atom * str.

(** [value.strip()] on a group: [None] has no such method. *)
Definition py_strip (a : atom) : result atom :=
  match a with
  | AStr s => Ok (AStr (strip s))
  | ANone => Raise AttributeError
  end.

Definition parse_worksheet_form_bundle (mo : match_obj) : result item :=
  value ← group mo 2;
  value ← match value with
          | ANone => Ok ANone
          | _ => py_strip value
          end;
  g3 ← group mo 3;
  uuid ← py_strip g3;
  Ok (uuid, value, "bundle" : str).

Definition parse_worksheet_form_display (mo : match_obj) : result item :=
  g0 ← group mo 0;
  Ok (ANone, g0, "directive" : str).

(** An entry of the table: a pattern, and the function that builds the
    item from a match of it. *)
Definition entry : Type := regex * (match_obj → result item).

(** The entries of the dictionary, listed as the literal lists them. The
    order of this list has no meaning: a Python 2 dictionary is iterated
    in the order of the interpreter's hash table, not in the order of
    the literal. *)
Definition parse_worksheet_parse_table : list entry :=
  [ (BUNDLE_LINE_REGEX, parse_worksheet_form_bundle);
    (BUNDLE_DISPLAY_DIRECTIVE, parse_worksheet_form_display);
    (BUNDLE_DISPLAY_FIELD, parse_worksheet_form_display);
    (WORKSHEET_TITLE_FIELD,
       λ mo, g1 ← group mo 1; Ok (ANone, g1, "title" : str));
    (WORKSHEET_DESCRIPTION_FIELD,
       λ mo, g1 ← group mo 1; Ok (ANone, g1, "description" : str)) ].

(** [{k: re.compile(k) for k in parse_worksheet_parse_table}], read at a
    key of the table. *)
Definition parse_worksheet_parse_table_exprs (k : regex) : compiled :=
  re_compile k.

(** The order in which [for line_parser in parse_worksheet_parse_table]
    visits the entries. The source does not fix it: it is some
    arrangement of the five entries, the same for every line. *)
Record visiting_order := VisitingOrder {
  order : list entry;
  order_perm : order ≡ₚ parse_worksheet_parse_table
}.

(** The inner loop: the first entry whose pattern matches builds the
    item and ends the loop; [current_result] stays as it is when none
    does. *)
Fixpoint first_match (table : list entry)
    (line : str) (current_result : item) : result item :=
  match table with
  | [] => Ok current_result
  | (line_parser, build) :: rest =>
      match re_match (parse_worksheet_parse_table_exprs line_parser) line with
      | Some mo => build mo
      | None => first_match rest line current_result
      end
  end.

(** One turn of the outer loop, from the list built so far. *)
Definition parse_line (ord : visiting_order) (acc : list item) (line : str)
    : result (list item) :=
  let line := strip line in
  if decide (take 2 line = "//") then Ok acc
  else
    current_result ← first_match (order ord) line
                       (ANone, AStr line, "markup" : str);
    Ok (acc ++ [current_result]).

Fixpoint parse_loop (ord : visiting_order) (acc : list item) (form_result : list str)
    : result (list item) :=
  match form_result with
  | [] => Ok acc
  | line :: rest => acc' ← parse_line ord acc line; parse_loop ord acc' rest
  end.

Definition parse_worksheet_form (ord : visiting_order) (form_result : list str)
    : result (list item) :=
  parse_loop ord [] form_result.

(** ** request_new_items *)

(** [s.split(sep)] for a one-character separator *)
Fixpoint py_split (sep : ascii) (s : str) : list str :=
  match s with
  | [] => [[]]
  | c :: s' =>
      if chr_eqb c sep then [] :: py_split sep s'
      else match py_split sep s' with
           | h :: t => (c :: h) :: t
           | [] => [[c]]
           end
  end.

(** [sep.join(lines)] for a list of strings *)
Fixpoint py_join (sep : str) (lines : list str) : str :=
  match lines with
  | [] => []
  | [l] => l
  | l :: rest => l ++ sep ++ py_join sep rest
  end.

(** [join] refuses a list that holds anything but strings. *)
Fixpoint as_strs (lines : list pyval) : result (list str) :=
  match lines with
  | [] => Ok []
  | PStr l :: rest => ls ← as_strs rest; Ok (l :: ls)
  | _ :: _ => Raise TypeError
  end.

(** [line[:-1] if line.endswith('\n') else line] *)
Definition chomp (line : str) : str :=
  match reverse line with
  | c :: r => if chr_eqb c newline then reverse r else line
  | [] => line
  end.

(** The header of the form, stripped and filled with the worksheet's
    name. *)
Definition header (name : str) : str :=
  "// Full-text editing for worksheet " ++ name ++
  ". This file is basically Markdown, except" ++ [newline] ++
  "// that is used for comments and that lines of the form {bundle_spec} are" ++ [newline] ++
  "// resolved as links to CodaLab bundles. You can even preface the curly braces" ++ [newline] ++
  "// with bracketed help text, like so: [some explanatory text]{bundle_spec}".

Section Session.

Variable dict_repr : gmap string atom → str.

(** [os.linesep] *)
Variable linesep : str.

(** The editor session on the temporary file: from the text written to
    the file, the lines [readlines] finds there afterwards, or [None]
    when the file is not there any more. *)
Variable edit : str → option (list str).

(** The order in which the interpreter iterates over the table. *)
Variable ord : visiting_order.

(** The template: the lines of the header, then the lines of the
    worksheet; [join] needs every one of them to be a string. *)
Definition template_lines (wi : worksheet_info) : result (list str) :=
  let header := header (ws_name wi) in
  let template_lines := PStr <$> py_split newline header in
  rendered ← get_worksheet_lines dict_repr wi;
  as_strs (template_lines ++ rendered).

(** The lines that come back from the editor, each without its final
    newline. *)
Definition form_result (template_lines : list str) : list str :=
  let template := py_join linesep template_lines in
  let lines :=
    match edit template with
    | Some lines => lines
    | None => template_lines
    end in
  chomp <$> lines.

Definition request_new_items (wi : worksheet_info) : result (list item) :=
  template_lines ← template_lines wi;
  let form_result := form_result template_lines in
  if decide (form_result = template_lines)
  then Raise (UsageError "No change made; aborting")
  else parse_worksheet_form ord form_result.

End Session.

(** * The vocabulary of the properties *)

(** Every character of [w] is in the class [p]. *)
Definition all_in (p : ascii → bool) (w : str) : Prop := Forall (λ c, p c = true) w.

(** The bracketed annotation of a bundle line, when it is there. *)
Definition bracket (o : option str) : str :=
  match o with
  | Some v => "[" ++ v ++ "]"
  | None => []
  end.

(** A group as a Python value: [None] when it took no part in the match. *)
Definition opt_atom (o : option str) : atom :=
  match o with
  | Some v => AStr v
  | None => ANone
  end.

(** ** Visiting orders *)

(** The order of the dictionary literal: the one the specification
    reads, and the one of an interpreter whose dictionaries keep the
    order of insertion. *)
Definition literal_order : visiting_order :=
  VisitingOrder parse_worksheet_parse_table (reflexivity _).

(** The order of CPython 2.7, the interpreter the module is written
    for: title, description, field directive, bundle, display
    directive (see [dict_iter] below). *)
Definition cpython27_order : visiting_order.
Proof.
  refine (VisitingOrder
    [ (WORKSHEET_TITLE_FIELD,
         λ mo, g1 ← group mo 1; Ok (ANone, g1, "title" : str));
      (WORKSHEET_DESCRIPTION_FIELD,
         λ mo, g1 ← group mo 1; Ok (ANone, g1, "description" : str));
      (BUNDLE_DISPLAY_FIELD, parse_worksheet_form_display);
      (BUNDLE_LINE_REGEX, parse_worksheet_form_bundle);
      (BUNDLE_DISPLAY_DIRECTIVE, parse_worksheet_form_display) ] _).
  unfold parse_worksheet_parse_table.
  apply (Permutation_cons_app [_; _; _] [_]); simpl.
  apply (Permutation_cons_app [_; _; _] []); simpl.
  apply (Permutation_cons_app [_; _] []); simpl.
  reflexivity.
Defined.

(** How CPython 2.7 comes to that order. The keys of the table are the
    pattern strings; a dictionary of five keys is a table of eight
    slots, a key goes to the slot given by the low bits of its hash, or
    to the next free slot of the probe sequence, and iteration reads
    the slots from the first to the last.

    [string_hash] is the hash of a byte string (Objects/stringobject.c,
    without hash randomisation), on a word of [w] bits. *)
Definition string_hash (w : Z) (s : str) : Z :=
  match s with
  | [] => 0%Z
  | c :: _ =>
      let x := Z.shiftl (Z.of_nat (nat_of_ascii c)) 7 in
      let x := fold_left (λ x c, Z.lxor ((1000003 * x) mod 2 ^ w)
                                    (Z.of_nat (nat_of_ascii c))) s x in
      let x := Z.lxor x (Z.of_nat (length s)) in
      if (x =? 2 ^ w - 1)%Z then (2 ^ w - 2)%Z else x
  end.

(** The probe sequence of Objects/dictobject.c on a table of eight
    slots: the first free slot, starting from [i]. *)
Fixpoint free_slot (fuel : nat) (slots : list (option nat)) (i perturb : Z) : nat :=
  match slots !! Z.to_nat (Z.land i 7) with
  | Some None => Z.to_nat (Z.land i 7)
  | _ =>
      match fuel with
      | O => Z.to_nat (Z.land i 7)
      | S fuel =>
          free_slot fuel slots (Z.shiftl i 2 + i + perturb + 1) (Z.shiftr perturb 5)
      end
  end.

(** The key number [k] of [keys] is put into the table. *)
Definition dict_insert (w : Z) (keys : list str) (slots : list (option nat)) (k : nat)
    : list (option nat) :=
  match keys !! k with
  | Some key =>
      let h := string_hash w key in
      <[ free_slot 64 slots (Z.land h 7) h := Some k ]> slots
  | None => slots
  end.

(** The keys, by their number in [keys], in the order in which a
    dictionary built from [keys] is iterated. *)
Definition dict_iter (w : Z) (keys : list str) : list nat :=
  omap id (fold_left (dict_insert w keys) (seq 0 (length keys)) (replicate 8 None)).

(** The keys of [parse_worksheet_parse_table], in the order of the
    literal. *)
Definition table_keys : list str :=
  [ "^(\[(.*)\])?\s*\{(.*)\}$" : str;
    "% display (table|default|inline)" : str;
    "% ([^\:]+): (image|metadata)/(.*)" : str;
    "%\s*title:\s*(.*)" : str;
    "%\s*description:\s*(.*)" : str ].

(** ** Classification *)

(** The entry [e] is the first entry of [table] whose pattern matches
    [line], and [mo] is its match. *)
Definition first_matching (table : list entry) (line : str) (e : entry)
    (mo : match_obj) : Prop :=
  ∃ before after : list entry, table = before ++ e :: after ∧
    Forall (λ e', re_match (re_compile e'.1) line = None) before ∧
    re_match (re_compile e.1) line = Some mo.

(** No pattern of the table matches [line]. *)
Definition unmatched (line : str) : Prop :=
  Forall (λ e : entry, re_match (re_compile e.1) line = None)
    parse_worksheet_parse_table.

(** The rules of the specification, in the order it gives them. *)
Inductive rule :=
| RBundle
| RDisplay
| RField
| RTitle
| RDescription
| RMarkup.

(** The pattern [r], compiled as the classifier compiles it, matches at
    the start of [line]. *)
Definition matches (r : regex) (line : str) : bool :=
  match re_match (re_compile r) line with
  | Some _ => true
  | None => false
  end.

(** The first rule of the specification whose grammar matches; markup
    when none does. *)
Definition first_rule (line : str) : rule :=
  if matches BUNDLE_LINE_REGEX line then RBundle
  else if matches BUNDLE_DISPLAY_DIRECTIVE line then RDisplay
  else if matches BUNDLE_DISPLAY_FIELD line then RField
  else if matches WORKSHEET_TITLE_FIELD line then RTitle
  else if matches WORKSHEET_DESCRIPTION_FIELD line then RDescription
  else RMarkup.

(** What the specification has a rule build from the line. *)
Definition built_by (ru : rule) (line : str) (it : item) : Prop :=
  match ru with
  | RBundle =>
      ∃ mo g3 v, re_match (re_compile BUNDLE_LINE_REGEX) line = Some mo ∧
        group mo 3 = Ok (AStr g3) ∧ group mo 2 = Ok (opt_atom v) ∧
        it = (AStr (strip g3), opt_atom (strip <$> v), "bundle" : str)
  | RDisplay =>
      ∃ mo, re_match (re_compile BUNDLE_DISPLAY_DIRECTIVE) line = Some mo ∧
        it = (ANone, AStr (mo_whole mo), "directive" : str)
  | RField =>
      ∃ mo, re_match (re_compile BUNDLE_DISPLAY_FIELD) line = Some mo ∧
        it = (ANone, AStr (mo_whole mo), "directive" : str)
  | RTitle =>
      ∃ mo v, re_match (re_compile WORKSHEET_TITLE_FIELD) line = Some mo ∧
        group mo 1 = Ok v ∧ it = (ANone, v, "title" : str)
  | RDescription =>
      ∃ mo v, re_match (re_compile WORKSHEET_DESCRIPTION_FIELD) line = Some mo ∧
        group mo 1 = Ok v ∧ it = (ANone, v, "description" : str)
  | RMarkup => it = (ANone, AStr line, "markup" : str)
  end.

(** An entry of a record is populated when it holds a string. *)
Definition populated (d : gmap string atom) (key : string) : Prop :=
  ∃ s : str, d !! key = Some (AStr s).

(** The display sub-record, and the field-binding one. *)
Definition display_populated (d : gmap string atom) : Prop :=
  populated d "display".

Definition field_populated (d : gmap string atom) : Prop :=
  populated d "name" ∨ populated d "path".

(** The editor that leaves the file as it is ... *)
Definition edit_nothing (template : str) : option (list str) :=
  Some ((λ l, l ++ [newline]) <$> py_split newline template).

(** ... and the one that appends a line to it. *)
Definition edit_append (line : str) (template : str) : option (list str) :=
  Some (((λ l, l ++ [newline]) <$> py_split newline template) ++ [line ++ [newline]]).

(** A worksheet with one line of markup. *)
Definition home : worksheet_info :=
  WorksheetInfo "home" [(None, PStr "Welcome", "markup" : str)].

(** The modes of a display directive. *)
Definition display_modes : list str := ["table" : str; "default" : str; "inline" : str].

(** The repetition a pattern ends with, when it ends with one. *)
Fixpoint last_star (r : regex) : option cset :=
  match r with
  | Star cs => Some cs
  | Group _ r => last_star r
  | Seq _ r2 => last_star r2
  | _ => None
  end.

(** A text without the newline character is a single line. *)
Definition no_newline (s : str) : Prop := newline ∉ s.

(** A text that [strip] leaves as it is. *)
Definition trimmed (s : str) : Prop := strip s = s.

(** The [bundle_info] that the worksheet holds for a parsed item: none
    for an item without bundle, and for a bundle item the dictionary of
    that bundle, with its [bundle_type] (the reference is not broken). *)
Definition resolves (info : option (gmap string atom)) (uuid : atom) : Prop :=
  match uuid with
  | ANone => info = None
  | AStr u =>
      ∃ d : gmap string atom, info = Some d ∧
        d !! "uuid" = Some (AStr u) ∧ is_Some (d !! "bundle_type")
  end.

Section RoundTrip.

Variable dict_repr : gmap string atom → str.
Variable ord : visiting_order.

(** The lines of a parsed item: its value is expanded, and the item is
    rendered as the only item of a worksheet. *)
Definition render_parsed (info : option (gmap string atom)) (it : item)
    : result (list pyval) :=
  let '(uuid, value, type) := it in
  value ← expand_worksheet_item_info (atom_val value) type;
  get_worksheet_lines dict_repr (WorksheetInfo [] [(info, value, type)]).

(** The line [s] comes back from classifying and rendering. *)
Definition round_trips (s : str) : Prop :=
  ∃ it : item, parse_worksheet_form ord [s] = Ok [it] ∧
    ∀ info, resolves info it.1.1 → render_parsed info it = Ok [PStr s].

End RoundTrip.

(** The lines in the form in which the renderer writes them. A field
    directive is a single line that the field grammar matches and that
    none of the display, title and description grammars matches. *)
Inductive canonical : str → Prop :=
| canonical_markup (s : str) :
    trimmed s → take 2 s ≠ "//" → first_rule s = RMarkup → canonical s
| canonical_display (mode : str) :
    mode ∈ display_modes → canonical ("% display " ++ mode)
| canonical_field (s : str) :
    trimmed s → no_newline s →
    matches BUNDLE_DISPLAY_FIELD s = true →
    matches BUNDLE_DISPLAY_DIRECTIVE s = false →
    matches WORKSHEET_TITLE_FIELD s = false →
    matches WORKSHEET_DESCRIPTION_FIELD s = false →
    canonical s
| canonical_title (v : str) :
    v ≠ [] → trimmed v → no_newline v → canonical ("% title: " ++ v)
| canonical_description (v : str) :
    v ≠ [] → trimmed v → no_newline v → canonical ("% description: " ++ v)
| canonical_bundle (v u : str) :
    trimmed v → trimmed u → no_newline v → no_newline u →
    "]"%char ∉ v → "{"%char ∉ u →
    canonical ("[" ++ v ++ "]{" ++ u ++ "}").

(** The line is a comment of the form: nothing is parsed from it. *)
Definition is_comment (line : str) : bool :=
  bool_decide (take 2 (strip line) = "//").

(** [f.readlines()] on a file opened in binary mode: the text of the
    file cut after each newline. *)
Fixpoint readlines (s : str) : list str :=
  match s with
  | [] => []
  | c :: s' =>
      if chr_eqb c newline then [c] :: readlines s'
      else match readlines s' with
           | [] => [[c]]
           | l :: ls => (c :: l) :: ls
           end
  end.

(** The editor session that ends with the file as it was written. *)
Definition edit_untouched (template : str) : option (list str) :=
  Some (readlines template).

(** The worksheet [home] with an empty line of text at its end. *)
Definition home_with_blank : worksheet_info :=
  WorksheetInfo "home" [(None, PStr "Welcome", "markup" : str);
                        (None, PStr "", "markup" : str)].

(** The pattern does not look at the end of the text: it has no [$]. *)
Fixpoint no_eol (r : regex) : bool :=
  match r with
  | Eol => false
  | Group _ r | Opt r => no_eol r
  | Alt r1 r2 | Seq r1 r2 => no_eol r1 && no_eol r2
  | _ => true
  end.

(** The kinds of items of the form. *)
Definition item_types : list str :=
  ["bundle" : str; "directive" : str; "title" : str; "description" : str;
   "markup" : str].

(** The shape of a parsed item: a known kind, a [bundle_uuid] for bundle
    items and only for them, without blanks around it, and a value,
    except for a bundle line without bracket. *)
Definition well_formed (it : item) : Prop :=
  let '(uuid, value, type) := it in
  type ∈ item_types ∧
  (type = "bundle" ↔ ∃ u : str, uuid = AStr u ∧ trimmed u) ∧
  (type ≠ "bundle" → uuid = ANone ∧ ∃ v : str, value = AStr v).

(** A parsed item as the Python values [get_current_items] returns. *)
Definition item_val (it : item) : pyval * pyval * str :=
  let '(uuid, value, type) := it in (atom_val uuid, atom_val value, type).

(** The items of a worksheet that the form writes the way it reads
    them: text that is classified as markup, a title or a description
    that the field grammar does not take, and a bundle with a uuid whose
    text has no closing bracket and whose uuid has no opening brace. *)
Inductive plain_item : ws_item → Prop :=
| plain_markup (s : str) :
    trimmed s → take 2 s ≠ "//" → first_rule s = RMarkup →
    plain_item (None, PStr s, "markup" : str)
| plain_title (v : str) :
    v ≠ [] → trimmed v → no_newline v →
    matches BUNDLE_DISPLAY_FIELD ("% title: " ++ v) = false →
    plain_item (None, PStr v, "title" : str)
| plain_description (v : str) :
    v ≠ [] → trimmed v → no_newline v →
    matches BUNDLE_DISPLAY_FIELD ("% description: " ++ v) = false →
    plain_item (None, PStr v, "description" : str)
| plain_bundle (d : gmap string atom) (v u : str) :
    d !! "uuid" = Some (AStr u) →
    trimmed v → trimmed u → no_newline v → no_newline u →
    "]"%char ∉ v → "{"%char ∉ u →
    plain_item (Some d, PStr v, "bundle" : str).

(** A worksheet with a title, a line of text and two bundles, the second
    of which is a broken reference. *)
Definition report : worksheet_info :=
  WorksheetInfo "report"
    [ (None, PStr "Results", "title" : str);
      (None, PStr "The runs of this week.", "markup" : str);
      (Some {[ "uuid" := AStr "0x1f"; "bundle_type" := AStr "run" ]},
       PStr "first run", "bundle" : str);
      (Some {[ "uuid" := AStr "0x2a" ]}, PStr "second run", "bundle" : str) ].

(** [os.linesep] where lines end with a carriage return and a newline. *)
Definition crlf : str := [ascii_of_nat 13; newline].

(** The item has what [get_current_items] reads: a [bundle_info] is a
    dictionary with a uuid. *)
Definition has_uuid (it : ws_item) : Prop :=
  match it.1.1 with
  | Some bundle_info => is_Some (bundle_info !! "uuid")
  | None => True
  end.

(** * Properties *)

(** ** Stripping *)

Lemma lstrip_app_keep (a b : str) : lstrip a ≠ [] → lstrip (a ++ b) = lstrip a ++ b.
Proof.
  induction a as [|c a IH]; simpl; [done|].
  destruct (isspace c); auto.
Qed.

Lemma lstrip_app_drop (a b : str) : lstrip a = [] → lstrip (a ++ b) = lstrip b.
Proof.
  induction a as [|c a IH]; simpl; [done|].
  destruct (isspace c); [auto|done].
Qed.

Lemma rstrip_nil : rstrip [] = [].
Proof. done. Qed.

Lemma rstrip_cons (c : ascii) (s : str) :
  rstrip (c :: s) =
  match rstrip s with
  | [] => if isspace c then [] else [c]
  | r => c :: r
  end.
Proof.
  unfold rstrip. rewrite reverse_cons.
  destruct (lstrip (reverse s)) as [|x r] eqn:E.
  - rewrite lstrip_app_drop by done. simpl.
    destruct (isspace c); done.
  - rewrite lstrip_app_keep by (rewrite E; done).
    rewrite E, reverse_app. simpl.
    destruct (reverse (x :: r)) eqn:E2; [|done].
    apply (f_equal length) in E2. rewrite length_reverse in E2. done.
Qed.

Lemma lstrip_idemp (s : str) : lstrip (lstrip s) = lstrip s.
Proof.
  induction s as [|c s IH]; simpl; [done|].
  destruct (isspace c) eqn:E; [done|]. simpl. by rewrite E.
Qed.

Lemma rstrip_idemp (s : str) : rstrip (rstrip s) = rstrip s.
Proof.
  unfold rstrip. by rewrite reverse_involutive, lstrip_idemp.
Qed.

Lemma lstrip_rstrip (s : str) : lstrip (rstrip s) = rstrip (lstrip s).
Proof.
  induction s as [|c s IH]; [done|].
  rewrite rstrip_cons. simpl.
  destruct (isspace c) eqn:E.
  - destruct (rstrip s) as [|x r] eqn:Er.
    + by rewrite <- IH.
    + simpl. by rewrite E.
  - rewrite rstrip_cons.
    destruct (rstrip s) as [|x r]; rewrite ?E; simpl; rewrite ?E; done.
Qed.

Lemma strip_idemp (s : str) : strip (strip s) = strip s.
Proof.
  unfold strip.
  by rewrite lstrip_rstrip, rstrip_idemp, lstrip_idemp.
Qed.

(** ** The matcher *)

Lemma elem_of_spans (p : ascii → bool) (s w r : str) :
  (w, r) ∈ spans p s ↔ s = w ++ r ∧ all_in p w.
Proof.
  unfold all_in. revert w r. induction s as [|c s IH]; intros w r; simpl.
  - rewrite list_elem_of_singleton. split.
    + intros [= -> ->]. by split.
    + intros [H _]. symmetry in H. apply app_eq_nil in H as [-> ->]. done.
  - destruct (p c) eqn:Hc.
    + rewrite elem_of_app, list_elem_of_fmap, list_elem_of_singleton. split.
      * intros [[[w' r'] [[= -> ->] Hin]]|[= -> ->]].
        -- apply IH in Hin as [-> Hw]. simpl. split; [done|]. by constructor.
        -- by split.
      * intros [Hs Hw]. destruct w as [|c' w'].
        -- simpl in Hs. subst r. by right.
        -- injection Hs as <- ->. left. exists (w', r). split; [done|].
           apply IH. split; [done|]. by inversion Hw.
    + rewrite list_elem_of_singleton. split.
      * intros [= -> ->]. by split.
      * intros [Hs Hw]. destruct w as [|c' w'].
        -- simpl in Hs. by subst r.
        -- injection Hs as <- ->. inversion Hw; congruence.
Qed.

Lemma elem_of_spans1 (p : ascii → bool) (s w r : str) :
  (w, r) ∈ spans1 p s ↔ s = w ++ r ∧ all_in p w ∧ w ≠ [].
Proof.
  unfold all_in. destruct s as [|c s]; simpl.
  - rewrite elem_of_nil. split; [done|]. intros (H & _ & Hne).
    symmetry in H. apply app_eq_nil in H as [-> _]. done.
  - destruct (p c) eqn:Hc.
    + rewrite list_elem_of_fmap. split.
      * intros [[w' r'] [[= -> ->] Hin]].
        apply elem_of_spans in Hin as [-> Hw]. simpl.
        split; [done|]. split; [by constructor|done].
      * intros (Hs & Hw & Hne). destruct w as [|c' w']; [done|].
        injection Hs as <- ->. exists (w', r). split; [done|].
        apply elem_of_spans. split; [done|]. by inversion Hw.
    + rewrite elem_of_nil. split; [done|]. intros (Hs & Hw & Hne).
      destruct w as [|c' w']; [done|].
      injection Hs as <- ->. inversion Hw; congruence.
Qed.

(** Greedy repetition: the first way consumes the longest run. *)
Lemma spans_head_all (p : ascii → bool) (s : str) :
  all_in p s → head (spans p s) = Some (s, []).
Proof.
  unfold all_in. induction 1 as [|c s Hc _ IH]; simpl; [done|].
  rewrite Hc. destruct (spans p s) as [|[w r] l]; [done|].
  simpl in *. by injection IH as -> ->.
Qed.

Lemma head_bind {A B} (f : A → list B) (l : list A) (y : B) :
  head (l ≫= f) = Some y → ∃ x, x ∈ l ∧ head (f x) = Some y.
Proof.
  induction l as [|x l IH]; simpl; [done|].
  destruct (f x) as [|z k] eqn:E; simpl.
  - intros H. destruct (IH H) as (x' & Hin & Hx'). exists x'. split; [by right|done].
  - intros [= ->]. exists x. split; [by left|]. by rewrite E.
Qed.

Lemma head_elem_of {A} (l : list A) (x : A) : head l = Some x → x ∈ l.
Proof. destruct l; [done|]. intros [= ->]. by left. Qed.

Section Matcher.

Variable d : bool.

Lemma elem_m_Bol st st' : st' ∈ m d Bol st ↔ consumed st = [] ∧ st' = st.
Proof.
  simpl. destruct (consumed st).
  - rewrite list_elem_of_singleton. naive_solver.
  - rewrite elem_of_nil. naive_solver.
Qed.

Lemma elem_m_Eol st st' : st' ∈ m d Eol st ↔ at_end (remaining st) = true ∧ st' = st.
Proof.
  simpl. destruct (at_end (remaining st)).
  - rewrite list_elem_of_singleton. naive_solver.
  - rewrite elem_of_nil. naive_solver.
Qed.

Lemma strip_prefix_Some (w s s' : str) : strip_prefix w s = Some s' ↔ s = w ++ s'.
Proof.
  revert s. induction w as [|a w IH]; intros s; simpl.
  - naive_solver.
  - destruct s as [|b s]; [done|]. unfold chr_eqb.
    destruct (Ascii.eqb_spec a b) as [->|Hne].
    + rewrite IH. naive_solver.
    + naive_solver.
Qed.

Lemma elem_m_Lit w st st' :
  st' ∈ m d (Lit w) st ↔
  ∃ s', remaining st = w ++ s' ∧ st' = MState (consumed st ++ w) s' (caps st).
Proof.
  simpl. destruct (strip_prefix w (remaining st)) as [s'|] eqn:E.
  - apply strip_prefix_Some in E. rewrite list_elem_of_singleton. split.
    + intros ->. by exists s'.
    + intros (s'' & Hs & ->). rewrite E in Hs. by apply app_inv_head in Hs as ->.
  - rewrite elem_of_nil. split; [done|]. intros (s' & Hs & _).
    apply strip_prefix_Some in Hs. congruence.
Qed.

Lemma elem_m_Star cs st st' :
  st' ∈ m d (Star cs) st ↔
  ∃ w s', remaining st = w ++ s' ∧ all_in (cset_mem d cs) w ∧
          st' = MState (consumed st ++ w) s' (caps st).
Proof.
  simpl. rewrite list_elem_of_fmap. split.
  - intros [[w s'] [-> Hin]]. apply elem_of_spans in Hin as [? ?]. by exists w, s'.
  - intros (w & s' & ? & ? & ->). exists (w, s'). split; [done|].
    by apply elem_of_spans.
Qed.

Lemma elem_m_Plus cs st st' :
  st' ∈ m d (Plus cs) st ↔
  ∃ w s', remaining st = w ++ s' ∧ all_in (cset_mem d cs) w ∧ w ≠ [] ∧
          st' = MState (consumed st ++ w) s' (caps st).
Proof.
  simpl. rewrite list_elem_of_fmap. split.
  - intros [[w s'] [-> Hin]]. apply elem_of_spans1 in Hin as (? & ? & ?).
    by exists w, s'.
  - intros (w & s' & ? & ? & ? & ->). exists (w, s'). split; [done|].
    by apply elem_of_spans1.
Qed.

Lemma elem_m_Group n r st st' :
  st' ∈ m d (Group n r) st ↔ ∃ st1, st1 ∈ m d r st ∧ st' = set_group n st st1.
Proof. simpl. rewrite list_elem_of_fmap. naive_solver. Qed.

Lemma elem_m_Opt r st st' : st' ∈ m d (Opt r) st ↔ st' ∈ m d r st ∨ st' = st.
Proof. simpl. rewrite elem_of_app, list_elem_of_singleton. done. Qed.

Lemma elem_m_Alt r1 r2 st st' :
  st' ∈ m d (Alt r1 r2) st ↔ st' ∈ m d r1 st ∨ st' ∈ m d r2 st.
Proof. simpl. by rewrite elem_of_app. Qed.

Lemma elem_m_Seq r1 r2 st st' :
  st' ∈ m d (r1 ∙ r2) st ↔ ∃ st1, st1 ∈ m d r1 st ∧ st' ∈ m d r2 st1.
Proof. simpl. rewrite list_elem_of_bind. naive_solver. Qed.

End Matcher.

Arguments m : simpl never.

(** Reading a membership in [m] off the structure of the pattern. *)
Ltac minv :=
  repeat match goal with
  | H : _ ∈ m _ (_ ∙ _) _ |- _ => apply elem_m_Seq in H as (? & ? & ?)
  | H : _ ∈ m _ (Opt _) _ |- _ => apply elem_m_Opt in H as [?|?]
  | H : _ ∈ m _ (Alt _ _) _ |- _ => apply elem_m_Alt in H as [?|?]
  | H : _ ∈ m _ (Group _ _) _ |- _ => apply elem_m_Group in H as (? & ? & ?)
  | H : _ ∈ m _ (Star _) _ |- _ => apply elem_m_Star in H as (? & ? & ? & ? & ?)
  | H : _ ∈ m _ (Plus _) _ |- _ => apply elem_m_Plus in H as (? & ? & ? & ? & ? & ?)
  | H : _ ∈ m _ (Lit _) _ |- _ => apply elem_m_Lit in H as (? & ? & ?)
  | H : _ ∈ m _ Bol _ |- _ => apply elem_m_Bol in H as (? & ?)
  | H : _ ∈ m _ Eol _ |- _ => apply elem_m_Eol in H as (? & ?)
  end; simplify_eq/=; rewrite ?drop_app_length, ?drop_0.

Lemma head_m_Seq d r1 r2 st y :
  head (m d (r1 ∙ r2) st) = Some y →
  ∃ x, x ∈ m d r1 st ∧ head (m d r2 x) = Some y.
Proof. apply head_bind. Qed.

Lemma re_match_Some (c : compiled) (s : str) (mo : match_obj) :
  re_match c s = Some mo ↔
  ∃ st, head (m (flag_dotall c) (pattern c) (MState [] s [])) = Some st ∧
        mo = MatchObj (ngroups (pattern c)) (consumed st) (caps st).
Proof.
  unfold re_match. destruct (m _ _ _) as [|st l]; simpl.
  - naive_solver.
  - split.
    + intros [= <-]. by exists st.
    + intros (st' & [= <-] & ->). done.
Qed.

Lemma re_match_None (c : compiled) (s : str) :
  re_match c s = None ↔ m (flag_dotall c) (pattern c) (MState [] s []) = [].
Proof. unfold re_match. destruct (m _ _ _); naive_solver. Qed.

Lemma re_match_elem (c : compiled) (s : str) (mo : match_obj) :
  re_match c s = Some mo →
  ∃ st, st ∈ m (flag_dotall c) (pattern c) (MState [] s []) ∧
        mo = MatchObj (ngroups (pattern c)) (consumed st) (caps st).
Proof.
  intros (st & Hst & ->)%re_match_Some. exists st. split; [|done].
  by apply head_elem_of.
Qed.

Lemma re_match_exists (c : compiled) (s : str) (st : mstate) :
  st ∈ m (flag_dotall c) (pattern c) (MState [] s []) →
  is_Some (re_match c s).
Proof.
  unfold re_match. destruct (m _ _ _); [|by eexists].
  by intros ?%elem_of_nil.
Qed.

(** ** The bundle grammar *)

(** A match of the bundle grammar splits the line into the optional
    bracket, blanks, and the braces at its end, and sets the groups to
    the contents of the bracket and of the braces. *)
Lemma bundle_line_inv (line : str) (mo : match_obj) :
  re_match (re_compile BUNDLE_LINE_REGEX) line = Some mo →
  ∃ (o : option str) (ws g3 tail : str),
    line = bracket o ++ ws ++ "{" ++ g3 ++ "}" ++ tail ∧
    all_in isspace ws ∧ at_end tail = true ∧
    mo_whole mo = bracket o ++ ws ++ "{" ++ g3 ++ "}" ∧
    group mo 2 = Ok (opt_atom o) ∧ group mo 3 = Ok (AStr g3).
Proof.
  intros (st & Hst & ->)%re_match_elem.
  unfold re_compile, BUNDLE_LINE_REGEX in Hst. cbn [flag_dotall pattern] in Hst.
  minv.
  - match goal with
    | _ : all_in (cset_mem false CSpace) ?ws, _ : at_end ?tail = true
      |- context [[(3, ?g3); (1, _); (2, ?v)]] =>
        exists (Some v), ws, g3, tail
    end.
    simpl. rewrite <- ?app_assoc. simpl. rewrite <- ?app_assoc. done.
  - match goal with
    | _ : all_in (cset_mem false CSpace) ?ws, _ : at_end ?tail = true
      |- context [[(3, ?g3)]] =>
        exists None, ws, g3, tail
    end.
    simpl. rewrite <- ?app_assoc. done.
Qed.

Lemma lstrip_head (s l : str) (c : ascii) : lstrip s = c :: l → isspace c = false.
Proof.
  induction s as [|x s IH]; simpl; [done|].
  destruct (isspace x) eqn:E; [done|]. by intros [= <- _].
Qed.

Lemma strip_head (s l : str) (c : ascii) : strip s = c :: l → isspace c = false.
Proof. unfold strip. rewrite <- lstrip_rstrip. apply lstrip_head. Qed.

Lemma strip_last (s l : str) (c : ascii) : strip s = l ++ [c] → isspace c = false.
Proof.
  unfold strip, rstrip. intros H.
  apply (f_equal reverse) in H.
  rewrite reverse_involutive, reverse_app in H. simpl in H.
  by apply lstrip_head in H.
Qed.

(** A trimmed line has nothing left for [$] to skip. *)
Lemma strip_at_end (s l tail : str) :
  strip s = l ++ tail → at_end tail = true → tail = [].
Proof.
  intros Hs Hend. destruct tail as [|c [|c' tail]]; [done| |done].
  apply strip_last in Hs. simpl in Hend. unfold chr_eqb in Hend.
  apply Ascii.eqb_eq in Hend as ->. done.
Qed.

(** ** Lines that start with a percent sign *)

(** A line that matches the bundle grammar starts with a bracket, a
    brace or a blank. *)
Lemma bundle_line_first (line : str) (mo : match_obj) :
  re_match (re_compile BUNDLE_LINE_REGEX) line = Some mo →
  ∃ (c : ascii) (rest : str), line = c :: rest ∧
    (c = "["%char ∨ c = "{"%char ∨ isspace c = true).
Proof.
  intros (o & ws & g3 & tail & -> & Hws & _)%bundle_line_inv.
  destruct o as [v|]; simpl; [by eexists _, _; eauto|].
  destruct ws as [|c ws]; simpl; [by eexists _, _; eauto|].
  inversion Hws; subst. by eexists _, _; eauto.
Qed.

Lemma percent_line_no_bundle (line rest : str) :
  line = "%"%char :: rest →
  re_match (re_compile BUNDLE_LINE_REGEX) line = None.
Proof.
  intros ->. destruct (re_match _ _) as [mo|] eqn:H; [|done].
  apply bundle_line_first in H as (c & r & [= <- <-] & [?|[?|?]]); done.
Qed.

Lemma directive_line_percent (r : regex) (line : str) (mo : match_obj) :
  re_match (re_compile (DIRECTIVE_PREFIX ∙ r)) line = Some mo →
  ∃ rest, line = "%"%char :: rest.
Proof.
  intros (st & Hst & _)%re_match_elem.
  cbn [flag_dotall pattern re_compile] in Hst. unfold DIRECTIVE_PREFIX in Hst.
  apply elem_m_Seq in Hst as (x & Hx & _).
  apply elem_m_Lit in Hx as (s' & Hs & _). simpl in Hs. by exists s'.
Qed.

Lemma bundle_line_no_percent (r : regex) (line : str) (mo : match_obj) :
  re_match (re_compile BUNDLE_LINE_REGEX) line = Some mo →
  re_match (re_compile (DIRECTIVE_PREFIX ∙ r)) line = None.
Proof.
  intros Hb. destruct (re_match (re_compile (DIRECTIVE_PREFIX ∙ r)) line) as [mo'|] eqn:H; [|done].
  apply directive_line_percent in H as [rest ->].
  by rewrite (percent_line_no_bundle _ rest) in Hb.
Qed.

Lemma title_group (line : str) (mo : match_obj) :
  re_match (re_compile WORKSHEET_TITLE_FIELD) line = Some mo →
  ∃ v : str, group mo 1 = Ok (AStr v).
Proof.
  intros (st & Hst & ->)%re_match_elem.
  cbn [flag_dotall pattern re_compile] in Hst.
  unfold WORKSHEET_TITLE_FIELD, DIRECTIVE_PREFIX in Hst.
  minv. by eexists.
Qed.

Lemma description_group (line : str) (mo : match_obj) :
  re_match (re_compile WORKSHEET_DESCRIPTION_FIELD) line = Some mo →
  ∃ v : str, group mo 1 = Ok (AStr v).
Proof.
  intros (st & Hst & ->)%re_match_elem.
  cbn [flag_dotall pattern re_compile] in Hst.
  unfold WORKSHEET_DESCRIPTION_FIELD, DIRECTIVE_PREFIX in Hst.
  minv. by eexists.
Qed.

(** ** The classifier *)

Lemma parse_single (ord : visiting_order) (s : str) :
  parse_worksheet_form ord [s] = parse_line ord [] s.
Proof.
  unfold parse_worksheet_form. simpl. by destruct (parse_line ord [] s).
Qed.

Lemma parse_line_comment (ord : visiting_order) (acc : list item) (s : str) :
  take 2 (strip s) = "//" → parse_line ord acc s = Ok acc.
Proof. intros H. unfold parse_line. by rewrite decide_True. Qed.

Lemma parse_line_item (ord : visiting_order) (acc : list item) (s : str) :
  take 2 (strip s) ≠ "//" →
  parse_line ord acc s =
  (current_result ← first_match (order ord) (strip s)
                      (ANone, AStr (strip s), "markup" : str);
   Ok (acc ++ [current_result])).
Proof. intros H. unfold parse_line. by rewrite decide_False. Qed.

Lemma group_0 (mo : match_obj) : group mo 0 = Ok (AStr (mo_whole mo)).
Proof. done. Qed.

Lemma re_match_ngroups (c : compiled) (s : str) (mo : match_obj) :
  re_match c s = Some mo → mo_ngroups mo = ngroups (pattern c).
Proof. by intros (st & _ & ->)%re_match_Some. Qed.

Lemma group_in_range (mo : match_obj) (k : nat) :
  k ≤ mo_ngroups mo → ∃ a, group mo k = Ok a.
Proof.
  intros Hk. unfold group.
  destruct (decide (k = 0)); [by eexists|].
  rewrite decide_True by done. by eexists.
Qed.

Lemma parse_worksheet_form_bundle_ok (mo : match_obj) (o : option str) (g3 : str) :
  group mo 2 = Ok (opt_atom o) → group mo 3 = Ok (AStr g3) →
  parse_worksheet_form_bundle mo =
  Ok (AStr (strip g3), opt_atom (strip <$> o), "bundle" : str).
Proof.
  intros H2 H3. unfold parse_worksheet_form_bundle. rewrite H2, H3.
  by destruct o.
Qed.

(** A line that matches the bundle grammar starts with a bracket, a
    blank or a brace: it is no comment. *)
Lemma bundle_line_no_comment (line : str) (mo : match_obj) :
  re_match (re_compile BUNDLE_LINE_REGEX) line = Some mo →
  take 2 line ≠ "//".
Proof.
  intros (o & ws & g3 & tail & -> & Hws & _)%bundle_line_inv.
  destruct o as [v|]; [done|]. simpl.
  destruct ws as [|c ws]; [done|].
  inversion Hws as [|?? Hc _]; subst. simpl.
  intros [= -> _]. done.
Qed.

(** *** The first entry that matches, in whatever order *)

Lemma first_match_none (table : list entry) (line : str) (d : item) :
  Forall (λ e, re_match (re_compile e.1) line = None) table →
  first_match table line d = Ok d.
Proof.
  induction 1 as [|[r b] table Hr _ IH]; [done|]. simpl in *.
  unfold parse_worksheet_parse_table_exprs. by rewrite Hr.
Qed.

Lemma first_match_inv (table : list entry) (line : str) (d : item) :
  (∃ e mo, first_matching table line e mo ∧ first_match table line d = e.2 mo) ∨
  (Forall (λ e, re_match (re_compile e.1) line = None) table ∧
   first_match table line d = Ok d).
Proof.
  induction table as [|[r b] table IH]; [by right|].
  simpl. unfold parse_worksheet_parse_table_exprs.
  destruct (re_match (re_compile r) line) as [mo|] eqn:Hr.
  - left. exists (r, b), mo. split; [|done]. by exists [], table.
  - destruct IH as [(e & mo & (before & after & -> & Hnone & He) & ->)|[Hnone ->]].
    + left. exists e, mo. split; [|done].
      exists ((r, b) :: before), after. split; [done|].
      split; [by constructor|done].
    + right. split; [by constructor|done].
Qed.

Lemma first_matching_elem (table : list entry) (line : str) (e : entry) (mo : match_obj) :
  first_matching table line e mo →
  e ∈ table ∧ re_match (re_compile e.1) line = Some mo.
Proof.
  intros (before & after & -> & _ & He). split; [|done].
  apply elem_of_app. right. by left.
Qed.

Lemma order_elem (ord : visiting_order) (e : entry) :
  e ∈ order ord ↔ e ∈ parse_worksheet_parse_table.
Proof. by rewrite (order_perm ord). Qed.

(** The five entries, one by one. *)
Lemma table_elem (e : entry) (P : entry → Prop) :
  e ∈ parse_worksheet_parse_table →
  P (BUNDLE_LINE_REGEX, parse_worksheet_form_bundle) →
  P (BUNDLE_DISPLAY_DIRECTIVE, parse_worksheet_form_display) →
  P (BUNDLE_DISPLAY_FIELD, parse_worksheet_form_display) →
  P (WORKSHEET_TITLE_FIELD, λ mo, g1 ← group mo 1; Ok (ANone, g1, "title" : str)) →
  P (WORKSHEET_DESCRIPTION_FIELD,
     λ mo, g1 ← group mo 1; Ok (ANone, g1, "description" : str)) →
  P e.
Proof.
  unfold parse_worksheet_parse_table. rewrite !elem_of_cons, elem_of_nil.
  intros [->|[->|[->|[->|[->|[]]]]]]; auto.
Qed.

(** When every entry that matches builds the same result, and one
    matches, that is the result in whatever order the table is
    visited. *)
Lemma order_agree (ord : visiting_order) (line : str) (d : item) (res : result item) :
  (∀ mo, re_match (re_compile BUNDLE_LINE_REGEX) line = Some mo →
         parse_worksheet_form_bundle mo = res) →
  (∀ mo, re_match (re_compile BUNDLE_DISPLAY_DIRECTIVE) line = Some mo →
         parse_worksheet_form_display mo = res) →
  (∀ mo, re_match (re_compile BUNDLE_DISPLAY_FIELD) line = Some mo →
         parse_worksheet_form_display mo = res) →
  (∀ mo, re_match (re_compile WORKSHEET_TITLE_FIELD) line = Some mo →
         (g1 ← group mo 1; Ok (ANone, g1, "title" : str)) = res) →
  (∀ mo, re_match (re_compile WORKSHEET_DESCRIPTION_FIELD) line = Some mo →
         (g1 ← group mo 1; Ok (ANone, g1, "description" : str)) = res) →
  ¬ unmatched line →
  first_match (order ord) line d = res.
Proof.
  intros Hb Hd Hf Ht He Hsome.
  destruct (first_match_inv (order ord) line d)
    as [(e & mo & [Hin Hmo]%first_matching_elem & ->)|[Hnone _]].
  - apply order_elem in Hin. revert mo Hmo.
    by apply (table_elem e (λ e, ∀ mo, re_match (re_compile e.1) line = Some mo →
                                       e.2 mo = res)).
  - exfalso. apply Hsome. unfold unmatched. by rewrite <- (order_perm ord).
Qed.

(** When no entry matches, the line stays what it was taken for. *)
Lemma order_none (ord : visiting_order) (line : str) (d : item) :
  unmatched line → first_match (order ord) line d = Ok d.
Proof.
  intros H. apply first_match_none. unfold unmatched in H.
  by rewrite (order_perm ord).
Qed.

Lemma unmatched_intro (line : str) :
  re_match (re_compile BUNDLE_LINE_REGEX) line = None →
  re_match (re_compile BUNDLE_DISPLAY_DIRECTIVE) line = None →
  re_match (re_compile BUNDLE_DISPLAY_FIELD) line = None →
  re_match (re_compile WORKSHEET_TITLE_FIELD) line = None →
  re_match (re_compile WORKSHEET_DESCRIPTION_FIELD) line = None →
  unmatched line.
Proof. intros. unfold unmatched, parse_worksheet_parse_table. by repeat constructor. Qed.

Lemma unmatched_elim (line : str) :
  unmatched line →
  re_match (re_compile BUNDLE_LINE_REGEX) line = None ∧
  re_match (re_compile BUNDLE_DISPLAY_DIRECTIVE) line = None ∧
  re_match (re_compile BUNDLE_DISPLAY_FIELD) line = None ∧
  re_match (re_compile WORKSHEET_TITLE_FIELD) line = None ∧
  re_match (re_compile WORKSHEET_DESCRIPTION_FIELD) line = None.
Proof.
  unfold unmatched, parse_worksheet_parse_table. intros H.
  repeat (apply Forall_cons in H as [? H]). done.
Qed.

Lemma bundle_line_only (line : str) (mo : match_obj) :
  re_match (re_compile BUNDLE_LINE_REGEX) line = Some mo →
  re_match (re_compile BUNDLE_DISPLAY_DIRECTIVE) line = None ∧
  re_match (re_compile BUNDLE_DISPLAY_FIELD) line = None ∧
  re_match (re_compile WORKSHEET_TITLE_FIELD) line = None ∧
  re_match (re_compile WORKSHEET_DESCRIPTION_FIELD) line = None.
Proof. intros Hb. repeat split; by apply (bundle_line_no_percent _ _ mo). Qed.

(** A line that the bundle grammar matches is built by the bundle entry,
    in whatever order: the other grammars ask for a percent sign. *)
Lemma bundle_first_match (ord : visiting_order) (line : str) (mo : match_obj) (d : item) :
  re_match (re_compile BUNDLE_LINE_REGEX) line = Some mo →
  first_match (order ord) line d = parse_worksheet_form_bundle mo.
Proof.
  intros Hb. destruct (bundle_line_only _ _ Hb) as (Hd & Hf & Ht & He).
  apply order_agree.
  - intros mo'. rewrite Hb. by intros [= <-].
  - intros mo'. by rewrite Hd.
  - intros mo'. by rewrite Hf.
  - intros mo'. by rewrite Ht.
  - intros mo'. by rewrite He.
  - intros (Hn & _)%unmatched_elim. congruence.
Qed.

(** The item of a line that is no comment, by the grammar that builds
    it. *)
Lemma first_match_cases (ord : visiting_order) (line : str) (default : item) :
  ∃ it : item, first_match (order ord) line default = Ok it ∧
    ((∃ (u : str) (o : option str),
        it = (AStr (strip u), opt_atom (strip <$> o), "bundle" : str)) ∨
     (∃ mo, it = (ANone, AStr (mo_whole mo), "directive" : str) ∧
        (re_match (re_compile BUNDLE_DISPLAY_DIRECTIVE) line = Some mo ∨
         re_match (re_compile BUNDLE_DISPLAY_FIELD) line = Some mo)) ∨
     (∃ v : str, it = (ANone, AStr v, "title" : str)) ∨
     (∃ v : str, it = (ANone, AStr v, "description" : str)) ∨
     it = default).
Proof.
  destruct (first_match_inv (order ord) line default)
    as [(e & mo & [Hin Hmo]%first_matching_elem & ->)|[_ ->]].
  - apply order_elem in Hin. revert mo Hmo.
    apply (table_elem e (λ e, ∀ mo, re_match (re_compile e.1) line = Some mo →
                                    ∃ it, e.2 mo = Ok it ∧ _)); [done|..]; simpl.
    + intros mo Hb.
      destruct (bundle_line_inv _ _ Hb) as (o & ws & g3 & tail & _ & _ & _ & _ & H2 & H3).
      rewrite (parse_worksheet_form_bundle_ok mo o g3) by done.
      eexists. split; [done|]. left. by exists g3, o.
    + intros mo Hd. eexists. split; [done|]. right. left. exists mo. auto.
    + intros mo Hf. eexists. split; [done|]. right. left. exists mo. auto.
    + intros mo Ht. destruct (title_group _ _ Ht) as [v ->].
      eexists. split; [done|]. right. right. left. by exists v.
    + intros mo He. destruct (description_group _ _ He) as [v ->].
      eexists. split; [done|]. right. right. right. left. by exists v.
  - eexists. split; [done|]. by repeat right.
Qed.

Lemma parse_single_cases (ord : visiting_order) (s : str) :
  parse_worksheet_form ord [s] = Ok [] ∨
  ∃ it : item, parse_worksheet_form ord [s] = Ok [it] ∧
    ((∃ (u : str) (o : option str),
        it = (AStr (strip u), opt_atom (strip <$> o), "bundle" : str)) ∨
     (∃ mo, it = (ANone, AStr (mo_whole mo), "directive" : str) ∧
        (re_match (re_compile BUNDLE_DISPLAY_DIRECTIVE) (strip s) = Some mo ∨
         re_match (re_compile BUNDLE_DISPLAY_FIELD) (strip s) = Some mo)) ∨
     (∃ v : str, it = (ANone, AStr v, "title" : str)) ∨
     (∃ v : str, it = (ANone, AStr v, "description" : str)) ∨
     it = (ANone, AStr (strip s), "markup" : str)).
Proof.
  rewrite parse_single.
  destruct (decide (take 2 (strip s) = "//")) as [Hc|Hc].
  - left. by rewrite parse_line_comment.
  - right. rewrite parse_line_item by done.
    destruct (first_match_cases ord (strip s) (ANone, AStr (strip s), "markup" : str))
      as (it & -> & H).
    by exists it.
Qed.

(** *** Bundle lines *)

(** C7. Every line whose trimmed text matches the bundle grammar is made
    of an optional bracket, blanks and braces, and is classified as a
    bundle item: its [bundle_uuid] is the trimmed contents of the braces,
    its value the trimmed contents of the bracket, or [None] when there
    is no bracket. This holds in whatever order the table is visited. *)
Theorem bundle_line_decomposition (ord : visiting_order) (s : str) (mo : match_obj) :
  re_match (re_compile BUNDLE_LINE_REGEX) (strip s) = Some mo →
  ∃ (o : option str) (ws g3 : str),
    strip s = bracket o ++ ws ++ "{" ++ g3 ++ "}" ∧
    all_in isspace ws ∧
    parse_worksheet_form ord [s] =
    Ok [(AStr (strip g3), opt_atom (strip <$> o), "bundle" : str)].
Proof.
  intros Hm.
  pose proof (bundle_line_no_comment _ _ Hm) as Hc.
  destruct (bundle_line_inv _ _ Hm) as (o & ws & g3 & tail & Hs & Hws & Hend & _ & H2 & H3).
  assert (tail = []) as ->.
  { apply (strip_at_end s (bracket o ++ ws ++ "{" ++ g3 ++ "}")); [|done].
    rewrite Hs, <- !app_assoc. done. }
  exists o, ws, g3. split; [by rewrite Hs, app_nil_r|]. split; [done|].
  rewrite parse_single, parse_line_item by done.
  rewrite (bundle_first_match ord _ mo) by done.
  by rewrite (parse_worksheet_form_bundle_ok mo o g3).
Qed.

Lemma bundle_line_decomposition_witness :
  ∃ (o : option str) (ws g3 : str),
    strip "[my favorite bundle]{a1b2c3}" = bracket o ++ ws ++ "{" ++ g3 ++ "}" ∧
    all_in isspace ws ∧
    parse_worksheet_form cpython27_order ["[my favorite bundle]{a1b2c3}" : str] =
    Ok [(AStr (strip g3), opt_atom (strip <$> o), "bundle" : str)].
Proof.
  eapply (bundle_line_decomposition cpython27_order "[my favorite bundle]{a1b2c3}").
  vm_compute. reflexivity.
Defined.

(** The example of the specification. *)
Example bundle_line_example :
  parse_worksheet_form cpython27_order ["[my favorite bundle]{a1b2c3}" : str] =
  Ok [(AStr "a1b2c3", AStr "my favorite bundle", "bundle" : str)].
Proof. vm_compute. reflexivity. Qed.

(** *** Totality *)

(** C3. Classifying one line never raises: a line whose trimmed text
    starts with // gives no item, whatever follows, and every other line
    gives exactly one item. This holds in whatever order the table is
    visited. *)
Theorem parse_worksheet_form_total (ord : visiting_order) (s : str) :
  (take 2 (strip s) = "//" ∧ parse_worksheet_form ord [s] = Ok []) ∨
  (take 2 (strip s) ≠ "//" ∧ ∃ it : item, parse_worksheet_form ord [s] = Ok [it]).
Proof.
  destruct (decide (take 2 (strip s) = "//")) as [Hc|Hc].
  - left. split; [done|]. by rewrite parse_single, parse_line_comment.
  - right. split; [done|].
    rewrite parse_single, parse_line_item by done.
    destruct (first_match_cases ord (strip s) (ANone, AStr (strip s), "markup" : str))
      as (it & -> & _).
    by exists it.
Qed.

(** C10. Classification does not see the blanks around a line: a line
    and its trimmed text give the same result, in whatever order the
    table is visited. *)
Theorem parse_worksheet_form_strip (ord : visiting_order) (s : str) :
  parse_worksheet_form ord [s] = parse_worksheet_form ord [strip s].
Proof.
  rewrite !parse_single. unfold parse_line. by rewrite strip_idemp.
Qed.

(** ** Precedence *)

Lemma matches_true (r : regex) (line : str) :
  matches r line = true → ∃ mo, re_match (re_compile r) line = Some mo.
Proof. unfold matches. destruct (re_match _ _); [by eexists|done]. Qed.

Lemma matches_false (r : regex) (line : str) :
  matches r line = false → re_match (re_compile r) line = None.
Proof. unfold matches. by destruct (re_match _ _). Qed.

Lemma matches_Some (r : regex) (line : str) (mo : match_obj) :
  re_match (re_compile r) line = Some mo → matches r line = true.
Proof. unfold matches. by intros ->. Qed.

(** C2, as the code has it. For a line that is no comment the
    classifier applies the first entry of the table whose grammar
    matches the trimmed line, in the order in which the interpreter
    iterates over the dictionary, and only that one; the line is markup
    when no grammar matches. The source does not fix that order. In
    every order the item is a bundle item exactly when the bundle
    grammar matches the line. *)
Theorem classification_precedence (ord : visiting_order) (s : str) :
  take 2 (strip s) ≠ "//" →
  ∃ (uuid value : atom) (type : str),
    parse_worksheet_form ord [s] = Ok [(uuid, value, type)] ∧
    ((∃ e mo, first_matching (order ord) (strip s) e mo ∧
              e.2 mo = Ok (uuid, value, type)) ∨
     (unmatched (strip s) ∧
      (uuid, value, type) = (ANone, AStr (strip s), "markup" : str))) ∧
    (type = "bundle" ↔ matches BUNDLE_LINE_REGEX (strip s) = true).
Proof.
  intros Hc. rewrite parse_single, parse_line_item by done.
  destruct (first_match_cases ord (strip s) (ANone, AStr (strip s), "markup" : str))
    as ([[uuid value] type] & Hit & _).
  rewrite Hit. exists uuid, value, type. split; [done|].
  destruct (first_match_inv (order ord) (strip s) (ANone, AStr (strip s), "markup" : str))
    as [(e & mo & Hfirst & He)|[Hnone Hd]].
  - rewrite Hit in He. split; [left; by exists e, mo|].
    destruct (first_matching_elem _ _ _ _ Hfirst) as [Hin Hmo].
    apply order_elem in Hin. split.
    + intros ->. revert mo Hmo He Hfirst.
      apply (table_elem e (λ e, ∀ mo, re_match (re_compile e.1) (strip s) = Some mo →
               Ok (uuid, value, "bundle" : str) = e.2 mo → _ → _)); [done|..]; simpl.
      * intros mo Hmo _ _. by eapply matches_Some.
      * intros mo _ [=].
      * intros mo _ [=].
      * intros mo Hmo.  destruct (title_group _ _ Hmo) as [v ->]. intros [=].
      * intros mo Hmo.  destruct (description_group _ _ Hmo) as [v ->]. intros [=].
    + intros [mo' Hb]%matches_true.
      rewrite (bundle_first_match ord _ mo') in Hit by done.
      destruct (bundle_line_inv _ _ Hb) as (o & ws & g3 & tail & _ & _ & _ & _ & H2 & H3).
      rewrite (parse_worksheet_form_bundle_ok mo' o g3) in Hit by done.
      by injection Hit as _ _ <-.
  - rewrite Hit in Hd. injection Hd as -> -> ->.
    assert (unmatched (strip s)) as Hun.
    { unfold unmatched. by rewrite <- (order_perm ord). }
    split; [by right|]. split; [done|].
    destruct (unmatched_elim _ Hun) as (Hb & _).
    unfold matches. by rewrite Hb.
Qed.

(** A line that two grammars match, in the order of CPython 2.7. *)
Lemma classification_precedence_witness :
  ∃ (uuid value : atom) (type : str),
    parse_worksheet_form cpython27_order ["% title: image/logo.png" : str] =
    Ok [(uuid, value, type)] ∧
    ((∃ e mo, first_matching (order cpython27_order)
                (strip "% title: image/logo.png") e mo ∧
              e.2 mo = Ok (uuid, value, type)) ∨
     (unmatched (strip "% title: image/logo.png") ∧
      (uuid, value, type) =
      (ANone, AStr (strip "% title: image/logo.png"), "markup" : str))) ∧
    (type = "bundle" ↔
     matches BUNDLE_LINE_REGEX (strip "% title: image/logo.png") = true).
Proof.
  apply (classification_precedence cpython27_order "% title: image/logo.png").
  vm_compute. discriminate.
Defined.

(** The order that the specification gives is not the order of the
    program: in the order of CPython 2.7 the title grammar is tried
    before the field grammar, and a line that both match, for which the
    first rule of the specification is the field directive, is a
    title. *)
Lemma classification_precedence_counterexample :
  first_rule "% title: image/logo.png" = RField ∧
  parse_worksheet_form cpython27_order ["% title: image/logo.png" : str] =
  Ok [(ANone, AStr "image/logo.png", "title" : str)] ∧
  ¬ built_by RField "% title: image/logo.png"
      (ANone, AStr "image/logo.png", "title" : str).
Proof.
  split; [by vm_compute|]. split; [by vm_compute|].
  intros (mo & _ & [=]).
Qed.

(** The slots of the dictionary of CPython 2.7, on words of 64 and of
    32 bits: the keys are visited in the order title, description,
    field directive, bundle, display directive. *)
Example cpython27_order_computed :
  string_hash 64 "a" = 12416037344%Z ∧
  dict_iter 64 table_keys = [3; 4; 2; 0; 1] ∧
  dict_iter 32 table_keys = [3; 4; 2; 0; 1] ∧
  Some <$> order cpython27_order =
  (λ k, parse_worksheet_parse_table !! k) <$> [3; 4; 2; 0; 1].
Proof. vm_compute. done. Qed.

(** In the order of the literal, the first rule of the specification
    whose grammar matches builds the item. *)
Lemma precedence_in_literal_order (s : str) :
  take 2 (strip s) ≠ "//" →
  ∃ it, parse_worksheet_form literal_order [s] = Ok [it] ∧
        built_by (first_rule (strip s)) (strip s) it.
Proof.
  intros Hc.
  rewrite parse_single, parse_line_item by done.
  simpl. unfold parse_worksheet_parse_table_exprs, first_rule.
  destruct (matches BUNDLE_LINE_REGEX (strip s)) eqn:Hb.
  { apply matches_true in Hb as [mo Hb]. rewrite Hb.
    destruct (bundle_line_inv _ _ Hb) as (o & ws & g3 & tail & _ & _ & _ & _ & H2 & H3).
    rewrite (parse_worksheet_form_bundle_ok mo o g3) by done. simpl.
    eexists. split; [done|]. by exists mo, g3, o. }
  rewrite (matches_false _ _ Hb).
  destruct (matches BUNDLE_DISPLAY_DIRECTIVE (strip s)) eqn:Hd.
  { apply matches_true in Hd as [mo Hd]. rewrite Hd. simpl.
    eexists. split; [done|]. by exists mo. }
  rewrite (matches_false _ _ Hd).
  destruct (matches BUNDLE_DISPLAY_FIELD (strip s)) eqn:Hf.
  { apply matches_true in Hf as [mo Hf]. rewrite Hf. simpl.
    eexists. split; [done|]. by exists mo. }
  rewrite (matches_false _ _ Hf).
  destruct (matches WORKSHEET_TITLE_FIELD (strip s)) eqn:Ht.
  { apply matches_true in Ht as [mo Ht]. rewrite Ht.
    destruct (group_in_range mo 1) as [a Ha].
    { by rewrite (re_match_ngroups _ _ _ Ht). }
    rewrite Ha. simpl. eexists. split; [done|]. by exists mo, a. }
  rewrite (matches_false _ _ Ht).
  destruct (matches WORKSHEET_DESCRIPTION_FIELD (strip s)) eqn:He.
  { apply matches_true in He as [mo He]. rewrite He.
    destruct (group_in_range mo 1) as [a Ha].
    { by rewrite (re_match_ngroups _ _ _ He). }
    rewrite Ha. simpl. eexists. split; [done|]. by exists mo, a. }
  rewrite (matches_false _ _ He). simpl. by eexists.
Qed.

(** Lines that two grammars match, in the two orders. *)
Example precedence_field_and_title :
  matches BUNDLE_DISPLAY_FIELD "% title: image/logo.png" = true ∧
  matches WORKSHEET_TITLE_FIELD "% title: image/logo.png" = true ∧
  parse_worksheet_form literal_order ["% title: image/logo.png" : str] =
  Ok [(ANone, AStr "% title: image/logo.png", "directive" : str)] ∧
  parse_worksheet_form cpython27_order ["% title: image/logo.png" : str] =
  Ok [(ANone, AStr "image/logo.png", "title" : str)].
Proof. vm_compute. done. Qed.

Example precedence_display_and_field :
  matches BUNDLE_DISPLAY_DIRECTIVE "% display table: image/x" = true ∧
  matches BUNDLE_DISPLAY_FIELD "% display table: image/x" = true ∧
  parse_worksheet_form literal_order ["% display table: image/x" : str] =
  Ok [(ANone, AStr "% display table", "directive" : str)] ∧
  parse_worksheet_form cpython27_order ["% display table: image/x" : str] =
  Ok [(ANone, AStr "% display table: image/x", "directive" : str)].
Proof. vm_compute. done. Qed.

(** ** The directive expander *)

Lemma display_expr_inv (text : str) (mo : match_obj) :
  re_match MATCH_DISPLAY_EXPR text = Some mo →
  ∃ mode : str, group mo 1 = Ok (AStr mode) ∧
    mode ∈ [("table" : str); ("default" : str); ("inline" : str)].
Proof.
  intros (st & Hst & ->)%re_match_elem.
  unfold MATCH_DISPLAY_EXPR, re_compile_DOTALL, BUNDLE_DISPLAY_DIRECTIVE,
    DIRECTIVE_PREFIX in Hst.
  cbn [flag_dotall pattern] in Hst.
  minv; eexists; (split; [reflexivity|]); set_solver.
Qed.

Lemma field_expr_inv (text : str) (mo : match_obj) :
  re_match MATCH_FIELD_EXPR text = Some mo →
  ∃ name kind path : str,
    group mo 1 = Ok (AStr name) ∧ group mo 2 = Ok (AStr kind) ∧
    group mo 3 = Ok (AStr path) ∧ name ≠ [] ∧
    kind ∈ [("image" : str); ("metadata" : str)].
Proof.
  intros (st & Hst & ->)%re_match_elem.
  unfold MATCH_FIELD_EXPR, re_compile_DOTALL, BUNDLE_DISPLAY_FIELD,
    DIRECTIVE_PREFIX in Hst.
  cbn [flag_dotall pattern] in Hst.
  minv; eexists _, _, _; (repeat split; [reflexivity..|done|]); set_solver.
Qed.

Lemma expand_directive_unfold (text : str) :
  expand_worksheet_item_info (PStr text) "directive" =
  match re_match MATCH_DISPLAY_EXPR text with
  | Some match_display =>
      g1 ← group match_display 1;
      g0 ← group match_display 0;
      Ok (PDict {[ "type" := AStr "directive"; "directive" := AStr "display";
                   "display" := g1; "markup" := g0 ]})
  | None =>
      match re_match MATCH_FIELD_EXPR text with
      | Some match_field =>
          g2 ← group match_field 2;
          g1 ← group match_field 1;
          g3 ← group match_field 3;
          g0 ← group match_field 0;
          Ok (PDict {[ "type" := AStr "directive"; "directive" := g2;
                       "name" := g1; "path" := g3; "markup" := g0 ]})
      | None =>
          Ok (PDict {[ "type" := AStr "directive"; "name" := ANone;
                       "path" := ANone; "value" := ANone ]})
      end
  end.
Proof.
  unfold expand_worksheet_item_info. rewrite decide_True by done. simpl.
  destruct (re_match MATCH_DISPLAY_EXPR text); [done|].
  by destruct (re_match MATCH_FIELD_EXPR text).
Qed.

(** C5. A directive text that matches neither the display grammar nor
    the field grammar expands, without an exception, to a record whose
    name, path and value are [None] and that has no display entry. *)
Theorem directive_fallback (text : str) :
  re_match MATCH_DISPLAY_EXPR text = None →
  re_match MATCH_FIELD_EXPR text = None →
  ∃ d : gmap string atom,
    expand_worksheet_item_info (PStr text) "directive" = Ok (PDict d) ∧
    d !! "name" = Some ANone ∧ d !! "path" = Some ANone ∧
    d !! "value" = Some ANone ∧ d !! "display" = None.
Proof.
  intros Hd Hf. rewrite expand_directive_unfold, Hd, Hf.
  eexists. split; [reflexivity|]. by vm_compute.
Qed.

Lemma directive_fallback_witness :
  ∃ d : gmap string atom,
    expand_worksheet_item_info (PStr "% show everything") "directive" = Ok (PDict d) ∧
    d !! "name" = Some ANone ∧ d !! "path" = Some ANone ∧
    d !! "value" = Some ANone ∧ d !! "display" = None.
Proof.
  apply (directive_fallback "% show everything"); vm_compute; reflexivity.
Defined.

(** C6. The record of a directive never has both the display entry and
    the field entries (name, path) populated: the display grammar is
    tried first and fills the display entry only; the field grammar is
    consulted when the display grammar does not match, and then fills
    name and path only. *)
Theorem directive_exclusive (text : str) :
  ∃ d : gmap string atom,
    expand_worksheet_item_info (PStr text) "directive" = Ok (PDict d) ∧
    ¬ (display_populated d ∧ field_populated d) ∧
    (is_Some (re_match MATCH_DISPLAY_EXPR text) →
     display_populated d ∧ ¬ field_populated d) ∧
    (re_match MATCH_DISPLAY_EXPR text = None →
     is_Some (re_match MATCH_FIELD_EXPR text) →
     populated d "name" ∧ populated d "path" ∧ ¬ display_populated d).
Proof.
  rewrite expand_directive_unfold.
  unfold display_populated, field_populated, populated.
  destruct (re_match MATCH_DISPLAY_EXPR text) as [md|] eqn:Hd.
  - destruct (display_expr_inv _ _ Hd) as (mode & H1 & _).
    rewrite H1, group_0. simpl. eexists. split; [reflexivity|].
    assert (∀ P : Prop, ¬ (((∃ s : str, ({[ "type" := AStr "directive";
        "directive" := AStr "display"; "display" := AStr mode;
        "markup" := AStr (mo_whole md) ]} : gmap string atom) !! "name"
        = Some (AStr s)) ∨ (∃ s : str, ({[ "type" := AStr "directive";
        "directive" := AStr "display"; "display" := AStr mode;
        "markup" := AStr (mo_whole md) ]} : gmap string atom) !! "path"
        = Some (AStr s))) ∧ P)) as Hno.
    { intros P [[[s Hs]|[s Hs]] _]; vm_compute in Hs; discriminate. }
    split; [intros [_ H]; by apply (Hno True)|].
    split; [|done]. intros _. split.
    + exists mode. by vm_compute.
    + intros H. by apply (Hno True).
  - destruct (re_match MATCH_FIELD_EXPR text) as [mf|] eqn:Hf.
    + destruct (field_expr_inv _ _ Hf) as (name & kind & path & H1 & H2 & H3 & _).
      rewrite H1, H2, H3, group_0. simpl. eexists. split; [reflexivity|].
      assert (¬ ∃ s : str, ({[ "type" := AStr "directive";
          "directive" := AStr kind; "name" := AStr name; "path" := AStr path;
          "markup" := AStr (mo_whole mf) ]} : gmap string atom) !! "display"
          = Some (AStr s)) as Hno.
      { intros [s Hs]. vm_compute in Hs. discriminate. }
      split; [by intros [H _]|].
      split; [by intros [? [=]]|]. intros _ _. split; [|split; [|done]].
      * exists name. by vm_compute.
      * exists path. by vm_compute.
    + eexists. split; [reflexivity|].
      split; [|split; [by intros [? [=]]|by intros _ [? [=]]]].
      intros [[s Hs] _]. vm_compute in Hs. discriminate.
Qed.

(** ** The renderer on a degraded record *)

(** C4, as the code has it: the record that the expander returns for a
    directive text matching neither grammar has no markup entry, and the
    renderer, which reads that entry of every directive, raises
    [KeyError] on it. *)
Theorem render_degraded_directive_raises :
  ∃ value : pyval,
    expand_worksheet_item_info (PStr "% show everything") "directive" = Ok value ∧
    ∀ (dict_repr : gmap string atom → str) (name : str),
      get_worksheet_lines dict_repr
        (WorksheetInfo name [(None, value, "directive" : str)]) =
      Raise (KeyError "markup").
Proof.
  eexists. split; [vm_compute; reflexivity|].
  intros dict_repr name. vm_compute. reflexivity.
Qed.

(** ** The edit session *)



Section SessionProperties.

Variable dict_repr : gmap string atom → str.
Variable linesep : str.
Variable edit : str → option (list str).
Variable ord : visiting_order.


End SessionProperties.


Example session_unchanged :
  request_new_items (λ _, []) [newline] edit_nothing cpython27_order home =
  Raise (UsageError "No change made; aborting").
Proof. vm_compute. reflexivity. Qed.

Example session_changed :
  request_new_items (λ _, []) [newline] (edit_append "{0x1234}") cpython27_order home =
  Ok [(ANone, AStr "Welcome", "markup" : str);
      (AStr "0x1234", ANone, "bundle" : str)].
Proof. vm_compute. reflexivity. Qed.

(** ** More on the matcher: what a match preserves, and first matches *)

Lemma m_input (d : bool) (r : regex) (st st' : mstate) :
  st' ∈ m d r st →
  consumed st' ++ remaining st' = consumed st ++ remaining st.
Proof.
  revert st st'. induction r; intros st st' H.
  - by apply elem_m_Bol in H as [_ ->].
  - by apply elem_m_Eol in H as [_ ->].
  - apply elem_m_Lit in H as (s' & -> & ->). simpl. by rewrite <- app_assoc.
  - apply elem_m_Star in H as (w' & s' & -> & _ & ->). simpl. by rewrite <- app_assoc.
  - apply elem_m_Plus in H as (w' & s' & -> & _ & _ & ->). simpl. by rewrite <- app_assoc.
  - apply elem_m_Group in H as (st1 & H1 & ->). simpl. by apply IHr.
  - apply elem_m_Opt in H as [H| ->]; [by apply IHr|done].
  - apply elem_m_Alt in H as [H|H]; [by apply IHr1|by apply IHr2].
  - apply elem_m_Seq in H as (st1 & H1 & H2).
    rewrite (IHr2 _ _ H2). by apply IHr1.
Qed.

Lemma cset_mem_dotall (cs : cset) (c : ascii) :
  cset_mem false cs c = true → cset_mem true cs c = true.
Proof. by destruct cs. Qed.

(** A match without DOTALL is a match with it. *)
Lemma m_dotall_mono (r : regex) (st st' : mstate) :
  st' ∈ m false r st → st' ∈ m true r st.
Proof.
  revert st st'. induction r; intros st st'.
  - by rewrite !elem_m_Bol.
  - by rewrite !elem_m_Eol.
  - by rewrite !elem_m_Lit.
  - rewrite !elem_m_Star. intros (w' & s' & ? & Hw & ?). exists w', s'.
    repeat split; [done| |done].
    eapply Forall_impl; [exact Hw|]. intros c. apply cset_mem_dotall.
  - rewrite !elem_m_Plus. intros (w' & s' & ? & Hw & ? & ?). exists w', s'.
    repeat split; [done| |done|done].
    eapply Forall_impl; [exact Hw|]. intros c. apply cset_mem_dotall.
  - rewrite !elem_m_Group. intros (st1 & ? & ?). exists st1. auto.
  - rewrite !elem_m_Opt. intros [?|?]; auto.
  - rewrite !elem_m_Alt. intros [?|?]; auto.
  - rewrite !elem_m_Seq. intros (st1 & ? & ?). exists st1. auto.
Qed.

Lemma spans_head (p : ascii → bool) (w r : str) :
  all_in p w → (∀ c r', r = c :: r' → p c = false) →
  head (spans p (w ++ r)) = Some (w, r).
Proof.
  unfold all_in. intros Hw Hr. induction Hw as [|c w Hc _ IH]; simpl.
  - destruct r as [|c r']; [done|]. simpl. by rewrite (Hr c r').
  - rewrite Hc. destruct (spans p (w ++ r)) as [|[w1 r1] l]; [done|].
    simpl in *. by injection IH as -> ->.
Qed.

Lemma head_fmap {A B} (f : A → B) (l : list A) : head (f <$> l) = f <$> head l.
Proof. by destruct l. Qed.

Section FirstMatch.

Variable d : bool.

Lemma first_Seq r1 r2 st x y :
  head (m d r1 st) = Some x → head (m d r2 x) = Some y →
  head (m d (r1 ∙ r2) st) = Some y.
Proof.
  unfold m; fold m. destruct (m d r1 st) as [|x' l]; [done|].
  intros [= ->]. simpl. destruct (m d r2 x) as [|y' k]; [done|].
  by intros [= ->].
Qed.

Lemma first_Lit w s' st :
  remaining st = w ++ s' →
  head (m d (Lit w) st) = Some (MState (consumed st ++ w) s' (caps st)).
Proof.
  intros H. apply strip_prefix_Some in H. unfold m. by rewrite H.
Qed.

Lemma first_Star cs w r st :
  remaining st = w ++ r → all_in (cset_mem d cs) w →
  (∀ c r', r = c :: r' → cset_mem d cs c = false) →
  head (m d (Star cs) st) = Some (MState (consumed st ++ w) r (caps st)).
Proof.
  intros Hs Hw Hr. unfold m. rewrite Hs, head_fmap.
  by rewrite (spans_head _ w r).
Qed.

Lemma first_Group n r st x :
  head (m d r st) = Some x →
  head (m d (Group n r) st) = Some (set_group n st x).
Proof.
  intros H. unfold m; fold m. by rewrite head_fmap, H.
Qed.

(** A final greedy repetition leaves nothing that it could still read. *)
Lemma last_Star cs st y :
  head (m d (Star cs) st) = Some y → all_in (cset_mem d cs) (remaining st) →
  remaining y = [].
Proof.
  intros H Hall. unfold m in H.
  rewrite head_fmap, (spans_head_all _ _ Hall) in H.
  by injection H as <-.
Qed.

Lemma last_Group_Star n cs st y :
  head (m d (Group n (Star cs)) st) = Some y →
  all_in (cset_mem d cs) (remaining st) →
  remaining y = [].
Proof.
  intros H Hall. unfold m in H.
  rewrite !head_fmap, (spans_head_all _ _ Hall) in H.
  by injection H as <-.
Qed.

Lemma m_Seq_intro r1 r2 st x y :
  x ∈ m d r1 st → y ∈ m d r2 x → y ∈ m d (r1 ∙ r2) st.
Proof. intros. apply elem_m_Seq. by exists x. Qed.

Lemma m_Lit_intro w s' st :
  remaining st = w ++ s' →
  MState (consumed st ++ w) s' (caps st) ∈ m d (Lit w) st.
Proof. intros. apply elem_m_Lit. by exists s'. Qed.

Lemma m_Star_intro cs w s' st :
  remaining st = w ++ s' → all_in (cset_mem d cs) w →
  MState (consumed st ++ w) s' (caps st) ∈ m d (Star cs) st.
Proof. intros. apply elem_m_Star. by exists w, s'. Qed.

Lemma m_Group_intro n r st x :
  x ∈ m d r st → set_group n st x ∈ m d (Group n r) st.
Proof. intros. apply elem_m_Group. by exists x. Qed.

End FirstMatch.

(** ** Display directives in the classifier *)

Lemma display_directive_prefix (mode rest : str) :
  mode ∈ display_modes →
  re_match (re_compile BUNDLE_DISPLAY_DIRECTIVE) ("% display " ++ mode ++ rest) =
  Some (MatchObj 1 ("% display " ++ mode) [(1, mode)]).
Proof.
  unfold display_modes. rewrite !elem_of_cons, elem_of_nil.
  intros [->|[->|[->|[]]]]; vm_compute; reflexivity.
Qed.

Lemma display_line_percent_only (mode rest : str) :
  re_match (re_compile BUNDLE_LINE_REGEX) ("% display " ++ mode ++ rest) = None ∧
  re_match (re_compile WORKSHEET_TITLE_FIELD) ("% display " ++ mode ++ rest) = None ∧
  re_match (re_compile WORKSHEET_DESCRIPTION_FIELD) ("% display " ++ mode ++ rest) = None.
Proof.
  split; [by apply (percent_line_no_bundle _ (" display " ++ mode ++ rest))|].
  split; vm_compute; reflexivity.
Qed.

(** C8, as the code has it. The classifier matches its patterns at the
    start of the trimmed line only: a line that starts with the display
    directive, whatever follows the mode, is a directive item. Its value
    is the directive itself, or, when the field grammar matches the
    line too and is tried first, what the field grammar matched. *)
Theorem display_directive_at_start (ord : visiting_order) (s mode rest : str) :
  mode ∈ display_modes →
  strip s = "% display " ++ mode ++ rest →
  parse_worksheet_form ord [s] =
  Ok [(ANone, AStr ("% display " ++ mode), "directive" : str)] ∨
  ∃ mo, re_match (re_compile BUNDLE_DISPLAY_FIELD) (strip s) = Some mo ∧
    parse_worksheet_form ord [s] =
    Ok [(ANone, AStr (mo_whole mo), "directive" : str)].
Proof.
  intros Hmode Hs.
  rewrite parse_single, parse_line_item by (by rewrite Hs).
  rewrite Hs.
  destruct (display_line_percent_only mode rest) as (Hb & Ht & He).
  pose proof (display_directive_prefix mode rest Hmode) as Hd.
  destruct (first_match_inv (order ord) ("% display " ++ mode ++ rest)
              (ANone, AStr ("% display " ++ mode ++ rest), "markup" : str))
    as [(e & mo & [Hin Hmo]%first_matching_elem & ->)|[Hnone _]].
  - apply order_elem in Hin. revert mo Hmo.
    apply (table_elem e (λ e, ∀ mo,
             re_match (re_compile e.1) ("% display " ++ mode ++ rest) = Some mo → _));
      [done|..]; cbn [fst snd]; intros mo Hmo.
    + congruence.
    + rewrite Hd in Hmo. injection Hmo as <-. by left.
    + right. exists mo. split; [done|].
      cbn [snd]. unfold parse_worksheet_form_display. by rewrite group_0.
    + congruence.
    + congruence.
  - exfalso. rewrite (order_perm ord) in Hnone.
    apply unmatched_elim in Hnone as (_ & Hn & _). congruence.
Qed.

Lemma display_directive_at_start_witness :
  parse_worksheet_form cpython27_order ["  % display inline, please" : str] =
  Ok [(ANone, AStr ("% display " ++ "inline"), "directive" : str)] ∨
  ∃ mo, re_match (re_compile BUNDLE_DISPLAY_FIELD)
          (strip "  % display inline, please") = Some mo ∧
    parse_worksheet_form cpython27_order ["  % display inline, please" : str] =
    Ok [(ANone, AStr (mo_whole mo), "directive" : str)].
Proof.
  apply (display_directive_at_start cpython27_order
           "  % display inline, please" "inline" ", please").
  - vm_compute. set_solver.
  - vm_compute. reflexivity.
Defined.

(** The directive in the middle of a line is not seen: the line is
    markup, although the search pattern of the expander finds the
    directive in it. *)
Lemma display_directive_anywhere_counterexample :
  ("see % display table" : str) = "see " ++ "% display " ++ "table" ∧
  is_Some (re_match MATCH_DISPLAY_EXPR "see % display table") ∧
  parse_worksheet_form cpython27_order ["see % display table" : str] =
  Ok [(ANone, AStr "see % display table", "markup" : str)] ∧
  parse_worksheet_form literal_order ["see % display table" : str] =
  Ok [(ANone, AStr "see % display table", "markup" : str)].
Proof. vm_compute. split; [done|]. split; [by eexists|done]. Qed.

(** A line that starts with the display directive and that the field
    grammar matches: in the order of CPython 2.7 the field grammar is
    tried first and the whole line is the value. *)
Example display_line_taken_by_field :
  parse_worksheet_form cpython27_order ["% display table: image/x" : str] =
  Ok [(ANone, AStr "% display table: image/x", "directive" : str)].
Proof. vm_compute. reflexivity. Qed.

(** ** Whole-line matches *)

Lemma m_suffix (d : bool) (r : regex) (st st' : mstate) :
  st' ∈ m d r st → ∃ w, remaining st = w ++ remaining st'.
Proof.
  revert st st'. induction r; intros st st' H.
  - apply elem_m_Bol in H as [_ ->]. by exists [].
  - apply elem_m_Eol in H as [_ ->]. by exists [].
  - apply elem_m_Lit in H as (s' & -> & ->). by eexists.
  - apply elem_m_Star in H as (w' & s' & -> & _ & ->). by eexists.
  - apply elem_m_Plus in H as (w' & s' & -> & _ & _ & ->). by eexists.
  - apply elem_m_Group in H as (st1 & H1 & ->). simpl. by apply IHr.
  - apply elem_m_Opt in H as [H| ->]; [by apply IHr|by exists []].
  - apply elem_m_Alt in H as [H|H]; [by apply IHr1|by apply IHr2].
  - apply elem_m_Seq in H as (st1 & H1 & H2).
    destruct (IHr1 _ _ H1) as [w1 ->]. destruct (IHr2 _ _ H2) as [w2 ->].
    exists (w1 ++ w2). by rewrite <- app_assoc.
Qed.

(** The first match of a pattern that ends with a repetition reaches the
    end of a text made of what the repetition reads. *)
Lemma first_reaches_end (d : bool) (r : regex) (cs : cset) (st y : mstate) :
  last_star r = Some cs → all_in (cset_mem d cs) (remaining st) →
  head (m d r st) = Some y → remaining y = [].
Proof.
  revert st y. induction r; intros st y Hr Hall Hy; try done.
  - injection Hr as ->. by eapply last_Star.
  - unfold m in Hy; fold m in Hy. rewrite head_fmap in Hy.
    destruct (head (m d r st)) as [y'|] eqn:E; [|done].
    injection Hy as <-. simpl. by eapply IHr.
  - apply head_m_Seq in Hy as (x & Hx & Hy).
    eapply IHr2; [done| |done].
    destruct (m_suffix _ _ _ _ Hx) as [w Hw]. unfold all_in in *.
    rewrite Hw in Hall. by apply Forall_app in Hall as [_ ?].
Qed.

Lemma re_match_whole (c : compiled) (cs : cset) (s : str) (mo : match_obj) :
  last_star (pattern c) = Some cs → all_in (cset_mem (flag_dotall c) cs) s →
  re_match c s = Some mo → mo_whole mo = s.
Proof.
  intros Hr Hall (st & Hst & ->)%re_match_Some. simpl.
  pose proof (first_reaches_end _ _ _ (MState [] s []) _ Hr Hall Hst) as Hend.
  apply head_elem_of, m_input in Hst. simpl in Hst.
  by rewrite Hend, app_nil_r in Hst.
Qed.

Lemma all_in_dotall (s : str) : all_in (cset_mem true CDot) s.
Proof. unfold all_in. by apply Forall_forall. Qed.

Lemma no_newline_dot (s : str) : no_newline s ↔ all_in (cset_mem false CDot) s.
Proof.
  unfold no_newline, all_in. rewrite Forall_forall. simpl. unfold chr_eqb. split.
  - intros Hn c Hc. destruct (Ascii.eqb_spec c newline) as [->|]; done.
  - intros Hall Hin. specialize (Hall _ Hin). by rewrite Ascii.eqb_refl in Hall.
Qed.

(** The search patterns of the expander always take the whole text. *)
Lemma display_expr_whole (text : str) (mo : match_obj) :
  re_match MATCH_DISPLAY_EXPR text = Some mo → mo_whole mo = text.
Proof. apply (re_match_whole _ CDot); [done|apply all_in_dotall]. Qed.

Lemma field_expr_whole (text : str) (mo : match_obj) :
  re_match MATCH_FIELD_EXPR text = Some mo → mo_whole mo = text.
Proof. apply (re_match_whole _ CDot); [done|apply all_in_dotall]. Qed.

(** A record with its markup: what the expander returns whenever one of
    its patterns finds a directive in the text. *)
Lemma expand_directive_markup (text : str) :
  is_Some (re_match MATCH_DISPLAY_EXPR text) ∨
  is_Some (re_match MATCH_FIELD_EXPR text) →
  ∃ d : gmap string atom,
    expand_worksheet_item_info (PStr text) "directive" = Ok (PDict d) ∧
    d !! "markup" = Some (AStr text).
Proof.
  intros H. rewrite expand_directive_unfold.
  destruct (re_match MATCH_DISPLAY_EXPR text) as [md|] eqn:Hd.
  - destruct (display_expr_inv _ _ Hd) as (mode & H1 & _).
    rewrite H1, group_0, (display_expr_whole _ _ Hd). simpl.
    eexists. split; [reflexivity|]. by vm_compute.
  - destruct H as [[? [=]]|[mf Hf]]. rewrite Hf.
    destruct (field_expr_inv _ _ Hf) as (name & kind & path & H1 & H2 & H3 & _).
    rewrite H1, H2, H3, group_0, (field_expr_whole _ _ Hf). simpl.
    eexists. split; [reflexivity|]. by vm_compute.
Qed.

(** What the field grammar matches at the start of a line, the search
    pattern of the expander finds. *)
Lemma field_line_expr (line : str) :
  is_Some (re_match (re_compile BUNDLE_DISPLAY_FIELD) line) →
  is_Some (re_match MATCH_FIELD_EXPR line).
Proof.
  intros [mo (st & Hst & _)%re_match_elem].
  cbn [flag_dotall pattern re_compile] in Hst.
  apply m_dotall_mono in Hst.
  destruct (m true (Star CDot) st) as [|y l] eqn:Hy.
  { exfalso. assert (MState (consumed st ++ []) (remaining st) (caps st)
                       ∈ m true (Star CDot) st) as Hin.
    { by apply m_Star_intro; [|constructor]. }
    rewrite Hy in Hin. by apply elem_of_nil in Hin. }
  apply (re_match_exists MATCH_FIELD_EXPR line y).
  cbn [flag_dotall pattern MATCH_FIELD_EXPR re_compile_DOTALL].
  eapply m_Seq_intro.
  { apply (m_Star_intro true CDot [] line); [done|constructor]. }
  eapply m_Seq_intro; [exact Hst|]. rewrite Hy. by left.
Qed.

(** ** The round trip *)

(** *** Titles and descriptions written the way the renderer writes them *)

Lemma title_match (c : ascii) (v : str) :
  isspace c = false → no_newline (c :: v) →
  re_match (re_compile WORKSHEET_TITLE_FIELD) ("% title: " ++ c :: v) =
  Some (MatchObj 1 ("% title: " ++ c :: v) [(1, c :: v)]).
Proof.
  intros Hc Hn. apply re_match_Some.
  cbn [flag_dotall pattern re_compile].
  unfold WORKSHEET_TITLE_FIELD, DIRECTIVE_PREFIX.
  eexists. split; [|shelve].
  eapply first_Seq; [by apply (first_Lit _ "%" (" title: " ++ c :: v))|].
  eapply first_Seq.
  { apply (first_Star _ CSpace " " ("title: " ++ c :: v));
      [done|by repeat constructor|].
    by intros ?? [= <- <-]. }
  eapply first_Seq; [by apply (first_Lit _ "title:" (" " ++ c :: v))|].
  eapply first_Seq.
  { apply (first_Star _ CSpace " " (c :: v)); [done|by repeat constructor|].
    by intros ?? [= <- <-]. }
  apply first_Group.
  apply (first_Star _ CDot (c :: v) []);
    [by rewrite app_nil_r|by apply no_newline_dot|done].
  Unshelve. reflexivity.
Qed.

Lemma description_match (c : ascii) (v : str) :
  isspace c = false → no_newline (c :: v) →
  re_match (re_compile WORKSHEET_DESCRIPTION_FIELD) ("% description: " ++ c :: v) =
  Some (MatchObj 1 ("% description: " ++ c :: v) [(1, c :: v)]).
Proof.
  intros Hc Hn. apply re_match_Some.
  cbn [flag_dotall pattern re_compile].
  unfold WORKSHEET_DESCRIPTION_FIELD, DIRECTIVE_PREFIX.
  eexists. split; [|shelve].
  eapply first_Seq; [by apply (first_Lit _ "%" (" description: " ++ c :: v))|].
  eapply first_Seq.
  { apply (first_Star _ CSpace " " ("description: " ++ c :: v));
      [done|by repeat constructor|].
    by intros ?? [= <- <-]. }
  eapply first_Seq; [by apply (first_Lit _ "description:" (" " ++ c :: v))|].
  eapply first_Seq.
  { apply (first_Star _ CSpace " " (c :: v)); [done|by repeat constructor|].
    by intros ?? [= <- <-]. }
  apply first_Group.
  apply (first_Star _ CDot (c :: v) []);
    [by rewrite app_nil_r|by apply no_newline_dot|done].
  Unshelve. reflexivity.
Qed.

(** *** Bundle lines written the way the renderer writes them *)

Lemma split_at_first (c : ascii) (v a g b : str) :
  c ∉ v → v ++ c :: a = g ++ c :: b →
  (g = v ∧ a = b) ∨ (∃ x, g = v ++ c :: x ∧ a = x ++ c :: b).
Proof.
  intros Hc H. apply app_eq_inv in H as [(k & -> & Hk)|(k & -> & Hk)].
  - destruct k as [|c' k]; simpl in Hk.
    + injection Hk as ->. left. by rewrite app_nil_r.
    + injection Hk as <- _. exfalso. apply Hc. set_solver.
  - destruct k as [|c' k]; simpl in Hk.
    + injection Hk as ->. left. by rewrite app_nil_r.
    + injection Hk as -> ->. right. by exists k.
Qed.

(** With no closing bracket in [v] and no opening brace in [u], the line
    [[v]{u}] reads as a bundle line in one way only. *)
Lemma bundle_split_unique (v u : str) (o : option str) (ws g3 : str) :
  "]"%char ∉ v → "{"%char ∉ u → all_in isspace ws →
  "[" ++ v ++ "]{" ++ u ++ "}" = bracket o ++ ws ++ "{" ++ g3 ++ "}" →
  o = Some v ∧ ws = [] ∧ g3 = u.
Proof.
  intros Hv Hu Hws H. destruct o as [g2|]; simpl in H.
  - injection H as H.
    change (v ++ "]"%char :: "{"%char :: u ++ ["}"%char]) with
      (v ++ "]"%char :: ("{"%char :: u ++ ["}"%char])) in H.
    rewrite <- app_assoc in H. simpl in H.
    apply (split_at_first _ _ _ _ _ Hv) in H as [[-> H]|(x & -> & H)].
    + destruct ws as [|c ws]; simpl in H.
      * injection H as H. apply app_inv_tail in H as ->. done.
      * injection H as <- _. by inversion Hws.
    + exfalso. destruct x as [|c x]; simpl in H; [done|].
      injection H as <- H.
      assert ("{"%char ∈ u ++ ["}"%char]) as Hin.
      { rewrite H. set_solver. }
      set_solver.
  - exfalso. destruct ws as [|c ws]; simpl in H; [done|].
    injection H as <- _. by inversion Hws.
Qed.

Lemma bundle_canonical_match (v u : str) :
  no_newline v → no_newline u →
  is_Some (re_match (re_compile BUNDLE_LINE_REGEX) ("[" ++ v ++ "]{" ++ u ++ "}")).
Proof.
  intros Hv%no_newline_dot Hu%no_newline_dot.
  eapply (re_match_exists (re_compile BUNDLE_LINE_REGEX)).
  cbn [flag_dotall pattern re_compile]. unfold BUNDLE_LINE_REGEX.
  eapply m_Seq_intro; [by apply elem_m_Bol|].
  eapply m_Seq_intro.
  { apply elem_m_Opt. left. apply m_Group_intro.
    eapply m_Seq_intro; [by apply (m_Lit_intro _ "[" (v ++ "]{" ++ u ++ "}"))|].
    eapply m_Seq_intro.
    { apply m_Group_intro. by apply (m_Star_intro _ CDot v ("]{" ++ u ++ "}")). }
    by apply (m_Lit_intro _ "]" ("{" ++ u ++ "}")). }
  eapply m_Seq_intro.
  { by apply (m_Star_intro _ CSpace [] ("{" ++ u ++ "}")); [|constructor]. }
  eapply m_Seq_intro; [by apply (m_Lit_intro _ "{" (u ++ "}"))|].
  eapply m_Seq_intro.
  { apply m_Group_intro. by apply (m_Star_intro _ CDot u "}"). }
  eapply m_Seq_intro; [by apply (m_Lit_intro _ "}" [])|].
  by apply elem_m_Eol.
Qed.

Lemma field_line_percent (line : str) (mo : match_obj) :
  re_match (re_compile BUNDLE_DISPLAY_FIELD) line = Some mo →
  ∃ rest, line = "%"%char :: rest.
Proof.
  intros (st & Hst & _)%re_match_elem.
  cbn [flag_dotall pattern re_compile] in Hst.
  unfold BUNDLE_DISPLAY_FIELD, DIRECTIVE_PREFIX in Hst.
  apply elem_m_Seq in Hst as (x & Hx & _).
  apply elem_m_Lit in Hx as (s' & Hs & _). simpl in Hs. by exists s'.
Qed.

(** *** Trimmed texts *)

Lemma strip_ends (c x : ascii) (w : str) :
  isspace c = false → isspace x = false → trimmed (c :: w ++ [x]).
Proof.
  intros Hc Hx. unfold trimmed, strip. simpl. rewrite Hc.
  unfold rstrip. rewrite reverse_cons, reverse_app. simpl. rewrite Hx.
  by rewrite reverse_cons, reverse_app, reverse_involutive.
Qed.

Lemma trimmed_cons (v : str) :
  trimmed v → v ≠ [] → ∃ c v', v = c :: v' ∧ isspace c = false.
Proof.
  intros Ht Hne. destruct v as [|c v']; [done|].
  exists c, v'. split; [done|]. by apply (strip_head (c :: v') v').
Qed.

Lemma trimmed_snoc (v : str) :
  trimmed v → v ≠ [] → ∃ l x, v = l ++ [x] ∧ isspace x = false.
Proof.
  intros Ht Hne. destruct (reverse v) as [|x l] eqn:E.
  { apply (f_equal reverse) in E. rewrite reverse_involutive in E. done. }
  exists (reverse l), x.
  assert (v = reverse l ++ [x]) as Hv.
  { apply (f_equal reverse) in E. by rewrite reverse_involutive, reverse_cons in E. }
  split; [done|]. apply (strip_last v (reverse l)). by rewrite Ht.
Qed.

Lemma trimmed_prefixed (c : ascii) (a v : str) :
  isspace c = false → trimmed v → v ≠ [] → trimmed (c :: a ++ v).
Proof.
  intros Hc Ht Hne. destruct (trimmed_snoc v Ht Hne) as (l & x & -> & Hx).
  rewrite app_assoc. by apply strip_ends.
Qed.

(** *** What the classifier makes of the lines of the renderer *)

Lemma no_newline_app (a b : str) : no_newline a → no_newline b → no_newline (a ++ b).
Proof. unfold no_newline. intros ??. by apply not_elem_of_app. Qed.

Ltac literal_no_newline := apply no_newline_dot; by repeat constructor.

Section Lines.

Variable ord : visiting_order.

Lemma parse_markup_line (s : str) :
  trimmed s → take 2 s ≠ "//" → first_rule s = RMarkup →
  parse_worksheet_form ord [s] = Ok [(ANone, AStr s, "markup" : str)].
Proof.
  intros Ht Hc Hr. unfold first_rule in Hr.
  destruct (matches BUNDLE_LINE_REGEX s) eqn:Hb; [done|].
  destruct (matches BUNDLE_DISPLAY_DIRECTIVE s) eqn:Hd; [done|].
  destruct (matches BUNDLE_DISPLAY_FIELD s) eqn:Hf; [done|].
  destruct (matches WORKSHEET_TITLE_FIELD s) eqn:Hti; [done|].
  destruct (matches WORKSHEET_DESCRIPTION_FIELD s) eqn:Hde; [done|].
  apply matches_false in Hb, Hd, Hf, Hti, Hde.
  rewrite parse_single, parse_line_item by (by rewrite Ht).
  rewrite Ht, order_none; [done|]. by apply unmatched_intro.
Qed.

Lemma parse_field_line (s : str) :
  trimmed s → no_newline s →
  matches BUNDLE_DISPLAY_FIELD s = true →
  matches BUNDLE_DISPLAY_DIRECTIVE s = false →
  matches WORKSHEET_TITLE_FIELD s = false →
  matches WORKSHEET_DESCRIPTION_FIELD s = false →
  parse_worksheet_form ord [s] = Ok [(ANone, AStr s, "directive" : str)].
Proof.
  intros Ht Hn [mo Hf]%matches_true Hd%matches_false Hti%matches_false
    Hde%matches_false.
  destruct (field_line_percent _ _ Hf) as [rest Hs].
  assert (mo_whole mo = s) as Hw.
  { apply (re_match_whole (re_compile BUNDLE_DISPLAY_FIELD) CDot); [done| |done].
    by apply no_newline_dot. }
  rewrite parse_single, parse_line_item by (by rewrite Ht, Hs).
  rewrite Ht, (order_agree ord _ _ (Ok (ANone, AStr s, "directive" : str))); [done|..].
  - intros mo'. by rewrite (percent_line_no_bundle _ _ Hs).
  - intros mo'. by rewrite Hd.
  - intros mo'. rewrite Hf. intros [= <-].
    unfold parse_worksheet_form_display. by rewrite group_0, Hw.
  - intros mo'. by rewrite Hti.
  - intros mo'. by rewrite Hde.
  - intros (_ & _ & Hn' & _)%unmatched_elim. congruence.
Qed.

(** A title line is a title, or, when the field grammar matches it too
    and is tried first, a directive made of the whole line. *)
Lemma title_line_cases (v : str) :
  v ≠ [] → trimmed v → no_newline v →
  parse_worksheet_form ord ["% title: " ++ v] = Ok [(ANone, AStr v, "title" : str)] ∨
  (matches BUNDLE_DISPLAY_FIELD ("% title: " ++ v) = true ∧
   parse_worksheet_form ord ["% title: " ++ v] =
   Ok [(ANone, AStr ("% title: " ++ v), "directive" : str)]).
Proof.
  intros Hne Ht Hn.
  assert (trimmed ("% title: " ++ v)) as Hts.
  { by apply (trimmed_prefixed "%" " title: " v). }
  assert (no_newline ("% title: " ++ v)) as Hns.
  { apply no_newline_app; [literal_no_newline|done]. }
  assert (re_match (re_compile BUNDLE_DISPLAY_DIRECTIVE) ("% title: " ++ v) = None) as Hd.
  { vm_compute. reflexivity. }
  assert (re_match (re_compile WORKSHEET_DESCRIPTION_FIELD) ("% title: " ++ v) = None) as Hde.
  { vm_compute. reflexivity. }
  pose proof (percent_line_no_bundle ("% title: " ++ v) (" title: " ++ v) eq_refl) as Hb.
  destruct (trimmed_cons v Ht Hne) as (c & v' & -> & Hc).
  pose proof (title_match c v' Hc Hn) as Hti.
  rewrite parse_single, parse_line_item by (by rewrite Hts).
  rewrite Hts.
  destruct (first_match_inv (order ord) ("% title: " ++ c :: v')
              (ANone, AStr ("% title: " ++ c :: v'), "markup" : str))
    as [(e & mo & [Hin Hmo]%first_matching_elem & ->)|[Hnone _]].
  - apply order_elem in Hin. revert mo Hmo.
    apply (table_elem e (λ e, ∀ mo,
             re_match (re_compile e.1) ("% title: " ++ c :: v') = Some mo → _));
      [done|..]; cbn [fst snd]; intros mo Hmo.
    + congruence.
    + congruence.
    + right. split; [by eapply matches_Some|].
      cbn [snd]. unfold parse_worksheet_form_display. rewrite group_0.
      assert (mo_whole mo = "% title: " ++ c :: v') as ->; [|done].
      apply (re_match_whole (re_compile BUNDLE_DISPLAY_FIELD) CDot); [done| |done].
      by apply no_newline_dot.
    + left. rewrite Hti in Hmo. by injection Hmo as <-.
    + congruence.
  - exfalso. rewrite (order_perm ord) in Hnone.
    apply unmatched_elim in Hnone as (_ & _ & _ & Hn' & _). congruence.
Qed.

Lemma description_line_cases (v : str) :
  v ≠ [] → trimmed v → no_newline v →
  parse_worksheet_form ord ["% description: " ++ v] =
  Ok [(ANone, AStr v, "description" : str)] ∨
  (matches BUNDLE_DISPLAY_FIELD ("% description: " ++ v) = true ∧
   parse_worksheet_form ord ["% description: " ++ v] =
   Ok [(ANone, AStr ("% description: " ++ v), "directive" : str)]).
Proof.
  intros Hne Ht Hn.
  assert (trimmed ("% description: " ++ v)) as Hts.
  { by apply (trimmed_prefixed "%" " description: " v). }
  assert (no_newline ("% description: " ++ v)) as Hns.
  { apply no_newline_app; [literal_no_newline|done]. }
  assert (re_match (re_compile BUNDLE_DISPLAY_DIRECTIVE) ("% description: " ++ v) = None) as Hd.
  { vm_compute. reflexivity. }
  assert (re_match (re_compile WORKSHEET_TITLE_FIELD) ("% description: " ++ v) = None) as Hti.
  { vm_compute. reflexivity. }
  pose proof (percent_line_no_bundle ("% description: " ++ v)
                (" description: " ++ v) eq_refl) as Hb.
  destruct (trimmed_cons v Ht Hne) as (c & v' & -> & Hc).
  pose proof (description_match c v' Hc Hn) as Hde.
  rewrite parse_single, parse_line_item by (by rewrite Hts).
  rewrite Hts.
  destruct (first_match_inv (order ord) ("% description: " ++ c :: v')
              (ANone, AStr ("% description: " ++ c :: v'), "markup" : str))
    as [(e & mo & [Hin Hmo]%first_matching_elem & ->)|[Hnone _]].
  - apply order_elem in Hin. revert mo Hmo.
    apply (table_elem e (λ e, ∀ mo,
             re_match (re_compile e.1) ("% description: " ++ c :: v') = Some mo → _));
      [done|..]; cbn [fst snd]; intros mo Hmo.
    + congruence.
    + congruence.
    + right. split; [by eapply matches_Some|].
      cbn [snd]. unfold parse_worksheet_form_display. rewrite group_0.
      assert (mo_whole mo = "% description: " ++ c :: v') as ->; [|done].
      apply (re_match_whole (re_compile BUNDLE_DISPLAY_FIELD) CDot); [done| |done].
      by apply no_newline_dot.
    + congruence.
    + left. rewrite Hde in Hmo. by injection Hmo as <-.
  - exfalso. rewrite (order_perm ord) in Hnone.
    apply unmatched_elim in Hnone as (_ & _ & _ & _ & Hn'). congruence.
Qed.

Lemma parse_title_line (v : str) :
  v ≠ [] → trimmed v → no_newline v →
  matches BUNDLE_DISPLAY_FIELD ("% title: " ++ v) = false →
  parse_worksheet_form ord ["% title: " ++ v] = Ok [(ANone, AStr v, "title" : str)].
Proof.
  intros Hne Ht Hn Hf.
  destruct (title_line_cases v Hne Ht Hn) as [H|[H _]]; [done|congruence].
Qed.

Lemma parse_description_line (v : str) :
  v ≠ [] → trimmed v → no_newline v →
  matches BUNDLE_DISPLAY_FIELD ("% description: " ++ v) = false →
  parse_worksheet_form ord ["% description: " ++ v] =
  Ok [(ANone, AStr v, "description" : str)].
Proof.
  intros Hne Ht Hn Hf.
  destruct (description_line_cases v Hne Ht Hn) as [H|[H _]]; [done|congruence].
Qed.

Lemma parse_display_line (mode : str) :
  mode ∈ display_modes →
  parse_worksheet_form ord ["% display " ++ mode] =
  Ok [(ANone, AStr ("% display " ++ mode), "directive" : str)].
Proof.
  intros Hmode.
  assert (strip ("% display " ++ mode) = "% display " ++ mode ∧
          re_match (re_compile BUNDLE_DISPLAY_FIELD) ("% display " ++ mode) = None)
    as [Hts Hf].
  { unfold display_modes in Hmode. rewrite !elem_of_cons, elem_of_nil in Hmode.
    destruct Hmode as [->|[->|[->|[]]]]; by vm_compute. }
  destruct (display_line_percent_only mode []) as (Hb & Ht & He).
  pose proof (display_directive_prefix mode [] Hmode) as Hd.
  rewrite app_nil_r in Hb, Ht, He, Hd.
  rewrite parse_single, parse_line_item by (by rewrite Hts).
  rewrite Hts, (order_agree ord _ _
    (Ok (ANone, AStr ("% display " ++ mode), "directive" : str))); [done|..].
  - intros mo'. by rewrite Hb.
  - intros mo'. rewrite Hd. by intros [= <-].
  - intros mo'. by rewrite Hf.
  - intros mo'. by rewrite Ht.
  - intros mo'. by rewrite He.
  - intros (_ & Hn' & _)%unmatched_elim. congruence.
Qed.

Lemma parse_bundle_line (v u : str) :
  trimmed v → trimmed u → no_newline v → no_newline u →
  "]"%char ∉ v → "{"%char ∉ u →
  parse_worksheet_form ord ["[" ++ v ++ "]{" ++ u ++ "}"] =
  Ok [(AStr u, AStr v, "bundle" : str)].
Proof.
  intros Htv Htu Hnv Hnu Hv Hu.
  assert (trimmed ("[" ++ v ++ "]{" ++ u ++ "}")) as Hts.
  { change ("[" ++ v ++ "]{" ++ u ++ "}") with
      ("["%char :: v ++ "]{" ++ u ++ ["}"%char]).
    rewrite !app_assoc. by apply strip_ends. }
  destruct (bundle_canonical_match v u Hnv Hnu) as [mo Hm].
  destruct (bundle_line_inv _ _ Hm)
    as (o & ws & g3 & tail & Hs & Hws & Hend & _ & H2 & H3).
  assert (tail = []) as ->.
  { apply (strip_at_end ("[" ++ v ++ "]{" ++ u ++ "}")
             (bracket o ++ ws ++ "{" ++ g3 ++ "}")); [|done].
    rewrite Hts, Hs, <- !app_assoc. done. }
  rewrite app_nil_r in Hs.
  destruct (bundle_split_unique v u o ws g3 Hv Hu Hws Hs) as (-> & -> & ->).
  rewrite parse_single, parse_line_item by (by rewrite Hts).
  rewrite Hts, (bundle_first_match ord _ mo) by done.
  rewrite (parse_worksheet_form_bundle_ok mo (Some v) u) by done.
  simpl. by rewrite Htu, Htv.
Qed.

End Lines.

(** *** The cases of the round trip *)

Section RoundTripCases.

Variable dict_repr : gmap string atom → str.
Variable ord : visiting_order.

Lemma render_directive_markup (d : gmap string atom) (text : str) :
  d !! "markup" = Some (AStr text) →
  get_worksheet_lines dict_repr
    (WorksheetInfo [] [(None, PDict d, "directive" : str)]) = Ok [PStr text].
Proof.
  intros Hd. unfold get_worksheet_lines. simpl.
  unfold getitem. by rewrite Hd.
Qed.

Lemma markup_round_trips (s : str) :
  trimmed s → take 2 s ≠ "//" → first_rule s = RMarkup →
  round_trips dict_repr ord s.
Proof.
  intros Ht Hc Hr. exists (ANone, AStr s, "markup" : str). split.
  - by apply parse_markup_line.
  - intros info ->. done.
Qed.

(** A single line that the field grammar matches comes back from
    expanding and rendering. *)
Lemma directive_renders (s : str) :
  matches BUNDLE_DISPLAY_FIELD s = true →
  ∀ info, resolves info ANone →
    render_parsed dict_repr info (ANone, AStr s, "directive" : str) = Ok [PStr s].
Proof.
  intros [mo Hf]%matches_true info ->. unfold render_parsed. simpl atom_val.
  destruct (expand_directive_markup s) as (d & -> & Hm).
  { right. apply field_line_expr. by eexists. }
  by apply render_directive_markup.
Qed.

Lemma field_round_trips (s : str) :
  trimmed s → no_newline s →
  matches BUNDLE_DISPLAY_FIELD s = true →
  matches BUNDLE_DISPLAY_DIRECTIVE s = false →
  matches WORKSHEET_TITLE_FIELD s = false →
  matches WORKSHEET_DESCRIPTION_FIELD s = false →
  round_trips dict_repr ord s.
Proof.
  intros Ht Hn Hf Hd Hti Hde.
  exists (ANone, AStr s, "directive" : str). split.
  - by apply parse_field_line.
  - by apply directive_renders.
Qed.

Lemma title_round_trips (v : str) :
  v ≠ [] → trimmed v → no_newline v →
  round_trips dict_repr ord ("% title: " ++ v).
Proof.
  intros Hne Ht Hn.
  destruct (title_line_cases ord v Hne Ht Hn) as [Hp|[Hf Hp]].
  - exists (ANone, AStr v, "title" : str). split; [done|].
    intros info ->. vm_compute. reflexivity.
  - exists (ANone, AStr ("% title: " ++ v), "directive" : str). split; [done|].
    by apply directive_renders.
Qed.

Lemma description_round_trips (v : str) :
  v ≠ [] → trimmed v → no_newline v →
  round_trips dict_repr ord ("% description: " ++ v).
Proof.
  intros Hne Ht Hn.
  destruct (description_line_cases ord v Hne Ht Hn) as [Hp|[Hf Hp]].
  - exists (ANone, AStr v, "description" : str). split; [done|].
    intros info ->. vm_compute. reflexivity.
  - exists (ANone, AStr ("% description: " ++ v), "directive" : str). split; [done|].
    by apply directive_renders.
Qed.

Lemma display_round_trips (mode : str) :
  mode ∈ display_modes → round_trips dict_repr ord ("% display " ++ mode).
Proof.
  intros Hmode.
  exists (ANone, AStr ("% display " ++ mode), "directive" : str). split.
  - by apply parse_display_line.
  - unfold display_modes in Hmode. rewrite !elem_of_cons, elem_of_nil in Hmode.
    destruct Hmode as [->|[->|[->|[]]]]; intros info ->; vm_compute; reflexivity.
Qed.

Lemma bundle_round_trips (v u : str) :
  trimmed v → trimmed u → no_newline v → no_newline u →
  "]"%char ∉ v → "{"%char ∉ u →
  round_trips dict_repr ord ("[" ++ v ++ "]{" ++ u ++ "}").
Proof.
  intros Htv Htu Hnv Hnu Hv Hu.
  exists (AStr u, AStr v, "bundle" : str). split.
  - by apply parse_bundle_line.
  - intros info (d & -> & Huuid & Htype). unfold render_parsed. simpl.
    unfold get_worksheet_lines. simpl. unfold getitem. rewrite Huuid.
    rewrite decide_False; [done|]. intros E. rewrite E in Htype.
    by destruct Htype.
Qed.

(** C1, as the code has it. A line in the form in which the renderer
    writes lines comes back unchanged from classifying it, expanding its
    value and rendering it, in whatever order the table is visited. *)
Theorem round_trip_canonical (s : str) :
  canonical s → round_trips dict_repr ord s.
Proof.
  intros [s' Ht Hc Hr|mode Hm|s' Ht Hn Hf Hd Hti Hde|v Hne Ht Hn|v Hne Ht Hn
         |v u Htv Htu Hnv Hnu Hv Hu].
  - by apply markup_round_trips.
  - by apply display_round_trips.
  - by apply field_round_trips.
  - by apply title_round_trips.
  - by apply description_round_trips.
  - by apply bundle_round_trips.
Qed.

End RoundTripCases.

Lemma round_trip_canonical_witness :
  round_trips (λ _, []) cpython27_order "[my favorite bundle]{a1b2c3}".
Proof.
  apply (round_trip_canonical (λ _, []) cpython27_order "[my favorite bundle]{a1b2c3}").
  apply (canonical_bundle "my favorite bundle" "a1b2c3").
  - vm_compute. reflexivity.
  - vm_compute. reflexivity.
  - literal_no_newline.
  - literal_no_newline.
  - apply (bool_decide_unpack _). vm_compute. exact I.
  - apply (bool_decide_unpack _). vm_compute. exact I.
Defined.

(** A bundle line without bracket is rendered with the bracket, and with
    [None] printed in it. *)
Lemma round_trip_counterexample : ¬ round_trips (λ _, []) cpython27_order "{a1b2c3}".
Proof.
  intros (it & Hp & Hr). vm_compute in Hp. injection Hp as <-.
  specialize (Hr (Some {[ "uuid" := AStr "a1b2c3"; "bundle_type" := AStr "dataset" ]})).
  simpl in Hr. lapply Hr.
  - vm_compute. discriminate.
  - eexists. split; [reflexivity|]. split; [by vm_compute|].
    eexists. by vm_compute.
Qed.

Example bundle_without_bracket :
  parse_worksheet_form cpython27_order ["{a1b2c3}" : str] =
  Ok [(AStr "a1b2c3", ANone, "bundle" : str)] ∧
  render_parsed (λ _, [])
    (Some {[ "uuid" := AStr "a1b2c3"; "bundle_type" := AStr "dataset" ]})
    (AStr "a1b2c3", ANone, "bundle" : str) =
  Ok [PStr "[None]{a1b2c3}"].
Proof. split; vm_compute; reflexivity. Qed.

Example surrounding_blanks_are_lost :
  parse_worksheet_form cpython27_order ["  some text " : str] =
  Ok [(ANone, AStr "some text", "markup" : str)] ∧
  render_parsed (λ _, []) None (ANone, AStr "some text", "markup" : str) =
  Ok [PStr "some text"].
Proof. split; vm_compute; reflexivity. Qed.

Example title_spacing_is_normalised :
  parse_worksheet_form cpython27_order ["%title:My Worksheet" : str] =
  Ok [(ANone, AStr "My Worksheet", "title" : str)] ∧
  render_parsed (λ _, []) None (ANone, AStr "My Worksheet", "title" : str) =
  Ok [PStr "% title: My Worksheet"].
Proof. split; vm_compute; reflexivity. Qed.

(** A field directive that the title grammar matches too: in the order
    of CPython 2.7 it is a title, and comes back with another
    spacing. *)
Example field_line_read_as_title :
  matches BUNDLE_DISPLAY_FIELD "%  title: image/logo.png" = true ∧
  matches WORKSHEET_TITLE_FIELD "%  title: image/logo.png" = true ∧
  parse_worksheet_form cpython27_order ["%  title: image/logo.png" : str] =
  Ok [(ANone, AStr "image/logo.png", "title" : str)] ∧
  render_parsed (λ _, []) None (ANone, AStr "image/logo.png", "title" : str) =
  Ok [PStr "% title: image/logo.png"].
Proof. vm_compute. done. Qed.

(** ** The order of the table *)

(** X1. The inner loop gives a line of the bundle grammar the same item in
    whatever order it visits the entries of the table: no other grammar
    matches such a line. *)
Theorem bundle_line_any_order
    (table : list (regex * (match_obj → result item))) (line : str) (current : item) :
  table ≡ₚ parse_worksheet_parse_table →
  matches BUNDLE_LINE_REGEX line = true →
  first_match table line current =
  first_match parse_worksheet_parse_table line current.
Proof.
  intros Hperm [mo Hb]%matches_true.
  assert (first_match parse_worksheet_parse_table line current =
          parse_worksheet_form_bundle mo) as ->.
  { simpl. unfold parse_worksheet_parse_table_exprs. by rewrite Hb. }
  assert ((BUNDLE_LINE_REGEX, parse_worksheet_form_bundle) ∈ table) as Hin.
  { rewrite Hperm. by left. }
  assert (∀ e, e ∈ table → e ∈ parse_worksheet_parse_table) as Hall.
  { intros e. by rewrite Hperm. }
  clear Hperm. induction table as [|[k f] table IH]; [by apply elem_of_nil in Hin|].
  simpl. unfold parse_worksheet_parse_table_exprs.
  assert ((k, f) ∈ parse_worksheet_parse_table) as He by (apply Hall; by left).
  unfold parse_worksheet_parse_table in He.
  rewrite !elem_of_cons, elem_of_nil in He.
  destruct He as [[= -> ->]|He]; [by rewrite Hb|].
  assert (re_match (re_compile k) line = None) as ->.
  { destruct He as [[= -> ->]|[[= -> ->]|[[= -> ->]|[[= -> ->]|[]]]]];
      by apply (bundle_line_no_percent _ _ mo). }
  apply IH.
  - apply elem_of_cons in Hin as [[= <- <-]|Hin]; [|done].
    destruct He as [[= He _]|[[= He _]|[[= He _]|[[= He _]|[]]]]]; discriminate He.
  - intros e ?. apply Hall. by right.
Qed.

Lemma bundle_line_any_order_witness :
  first_match (reverse parse_worksheet_parse_table) "[x]{0x1}" (ANone, ANone, [])
  = first_match parse_worksheet_parse_table "[x]{0x1}" (ANone, ANone, []).
Proof.
  apply bundle_line_any_order.
  - apply reverse_Permutation.
  - vm_compute. reflexivity.
Defined.

(** For a line that two grammars match the order of the visit decides:
    visited from the last entry to the first, the table makes a title of
    a line that it makes a directive when visited in the order of the
    literal. *)
Example visiting_order_matters :
  first_match (reverse parse_worksheet_parse_table)
    "% title: image/logo.png" (ANone, ANone, []) =
  Ok (ANone, AStr "image/logo.png", "title" : str) ∧
  first_match parse_worksheet_parse_table
    "% title: image/logo.png" (ANone, ANone, []) =
  Ok (ANone, AStr "% title: image/logo.png", "directive" : str).
Proof. split; vm_compute; reflexivity. Qed.

(** ** Lists of lines *)

Lemma parse_line_acc (ord : visiting_order) (acc : list item) (line : str) :
  parse_line ord acc line = (acc ++.) <$> parse_line ord [] line.
Proof.
  unfold parse_line. destruct (decide _); [simpl; by rewrite app_nil_r|].
  by destruct (first_match (order ord) _ _).
Qed.

Lemma parse_loop_acc (ord : visiting_order) (form : list str) (acc : list item) :
  parse_loop ord acc form = (acc ++.) <$> parse_loop ord [] form.
Proof.
  revert acc. induction form as [|line form IH]; intros acc; simpl.
  - by rewrite app_nil_r.
  - rewrite (parse_line_acc ord acc).
    destruct (parse_line ord [] line) as [its|e]; simpl; [|done].
    rewrite (IH (acc ++ its)), (IH its).
    destruct (parse_loop ord [] form); simpl; [|done]. by rewrite app_assoc.
Qed.

Lemma parse_cons (ord : visiting_order) (line : str) (form : list str) :
  parse_worksheet_form ord (line :: form) =
  (its1 ← parse_worksheet_form ord [line];
   its2 ← parse_worksheet_form ord form;
   Ok (its1 ++ its2)).
Proof.
  rewrite parse_single. unfold parse_worksheet_form. simpl.
  destruct (parse_line ord [] line) as [its|e]; simpl; [|done].
  rewrite (parse_loop_acc ord form its). by destruct (parse_loop ord [] form).
Qed.

(** X2. Lines are classified one by one and in order: the items of two
    lists of lines one after the other are the items of the first
    followed by the items of the second. *)
Theorem parse_worksheet_form_app (ord : visiting_order) (form1 form2 : list str) :
  parse_worksheet_form ord (form1 ++ form2) =
  (its1 ← parse_worksheet_form ord form1;
   its2 ← parse_worksheet_form ord form2;
   Ok (its1 ++ its2)).
Proof.
  induction form1 as [|line form1 IH]; simpl.
  - change (parse_worksheet_form ord []) with (Ok [] : result (list item)).
    simpl. by destruct (parse_worksheet_form ord form2).
  - rewrite (parse_cons ord line (form1 ++ form2)), (parse_cons ord line form1), IH.
    destruct (parse_worksheet_form ord [line]) as [a|]; simpl; [|done].
    destruct (parse_worksheet_form ord form1) as [b|]; simpl; [|done].
    destruct (parse_worksheet_form ord form2) as [c|]; simpl; [|done].
    by rewrite app_assoc.
Qed.

(** X3. No list of lines makes the classifier raise, and it gives one
    item for each line that is no comment. *)
Theorem parse_worksheet_form_count (ord : visiting_order) (form : list str) :
  ∃ items : list item,
    parse_worksheet_form ord form = Ok items ∧
    length items = length (filter (λ line, is_comment line = false) form).
Proof.
  induction form as [|line form (items & Hp & Hl)].
  - by exists [].
  - rewrite parse_cons, Hp, parse_single. unfold is_comment.
    destruct (decide (take 2 (strip line) = "//")) as [Hc|Hc].
    + rewrite parse_line_comment by done. simpl. exists items. split; [done|].
      rewrite filter_cons_False; [done|]. by rewrite bool_decide_eq_true_2.
    + rewrite parse_line_item by done.
      destruct (first_match_cases ord (strip line)
                  (ANone, AStr (strip line), "markup" : str)) as (it & -> & _).
      simpl. eexists. split; [done|].
      rewrite filter_cons_True by (by rewrite bool_decide_eq_false_2).
      simpl. by rewrite Hl.
Qed.

(** ** The form read back *)

Lemma rstrip_cons_keep (c : ascii) (s : str) :
  isspace c = false → rstrip (c :: s) = c :: rstrip s.
Proof. intros Hc. rewrite rstrip_cons, Hc. by destruct (rstrip s). Qed.

Lemma comment_prefix (rest : str) :
  take 2 (strip ("/"%char :: "/"%char :: rest)) = "//".
Proof.
  unfold strip. simpl. by rewrite !rstrip_cons_keep.
Qed.

Lemma parse_comment_cons (ord : visiting_order) (line : str) (form : list str) :
  take 2 (strip line) = "//" →
  parse_worksheet_form ord (line :: form) = parse_worksheet_form ord form.
Proof.
  intros Hc. rewrite parse_cons, parse_single, parse_line_comment by done.
  simpl. by destruct (parse_worksheet_form ord form).
Qed.

Lemma py_split_line (sep : ascii) (a b : str) :
  sep ∉ a → py_split sep (a ++ sep :: b) = a :: py_split sep b.
Proof.
  unfold chr_eqb. intros Ha. induction a as [|c a IH]; simpl.
  - unfold chr_eqb. by rewrite Ascii.eqb_refl.
  - apply not_elem_of_cons in Ha as [Hc Ha]. unfold chr_eqb.
    destruct (Ascii.eqb_spec c sep) as [->|_]; [done|].
    by rewrite (IH Ha).
Qed.

Lemma header_lines (name : str) :
  no_newline name →
  py_split newline (header name) =
  [ "// Full-text editing for worksheet " ++ name ++
      ". This file is basically Markdown, except";
    "// that is used for comments and that lines of the form {bundle_spec} are" : str;
    "// resolved as links to CodaLab bundles. You can even preface the curly braces" : str;
    "// with bracketed help text, like so: [some explanatory text]{bundle_spec}" : str ].
Proof.
  intros Hn.
  assert (header name =
          ("// Full-text editing for worksheet " ++ name ++
             ". This file is basically Markdown, except") ++
          newline ::
          ("// that is used for comments and that lines of the form {bundle_spec} are" ++
           [newline] ++
           "// resolved as links to CodaLab bundles. You can even preface the curly braces" ++
           [newline] ++
           "// with bracketed help text, like so: [some explanatory text]{bundle_spec}"))
    as ->.
  { unfold header. by rewrite <- !app_assoc. }
  rewrite py_split_line.
  - f_equal.
  - apply no_newline_app; [|apply no_newline_app; [done|]];
      apply no_newline_dot; by repeat constructor.
Qed.

(** X4. The header of the form is made of comments: for a worksheet name
    without newline, the lines of the header give no item, whatever the
    lines after them are. *)
Theorem header_gives_no_items (ord : visiting_order) (name : str) (rest : list str) :
  no_newline name →
  parse_worksheet_form ord (py_split newline (header name) ++ rest) =
  parse_worksheet_form ord rest.
Proof.
  intros Hn. rewrite (header_lines name Hn). simpl.
  rewrite parse_comment_cons; [|apply comment_prefix].
  rewrite !parse_comment_cons; [done|by vm_compute..].
Qed.

Lemma header_gives_no_items_witness :
  parse_worksheet_form cpython27_order (py_split newline (header "home") ++ ["Welcome" : str]) =
  parse_worksheet_form cpython27_order ["Welcome" : str].
Proof.
  apply (header_gives_no_items cpython27_order "home").
  apply (bool_decide_unpack _). vm_compute. exact I.
Defined.

(** ** The file read back *)

Lemma readlines_line (l rest : str) :
  no_newline l → readlines (l ++ newline :: rest) = (l ++ [newline]) :: readlines rest.
Proof.
  unfold no_newline. intros Hl. induction l as [|c l IH]; simpl.
  - done.
  - apply not_elem_of_cons in Hl as [Hc Hl]. unfold chr_eqb.
    destruct (Ascii.eqb_spec c newline) as [->|_]; [done|].
    by rewrite (IH Hl).
Qed.

Lemma readlines_last (l : str) : no_newline l → l ≠ [] → readlines l = [l].
Proof.
  unfold no_newline. intros Hl Hne. induction l as [|c l IH]; [done|]. simpl.
  apply not_elem_of_cons in Hl as [Hc Hl]. unfold chr_eqb.
  destruct (Ascii.eqb_spec c newline) as [->|_]; [done|].
  destruct l as [|c' l]; [done|]. by rewrite IH.
Qed.

Lemma chomp_newline (l : str) : chomp (l ++ [newline]) = l.
Proof.
  unfold chomp. rewrite reverse_app. simpl.
  by rewrite reverse_involutive.
Qed.

Lemma chomp_no_newline (l : str) : no_newline l → chomp l = l.
Proof.
  unfold no_newline, chomp. intros Hl.
  destruct (reverse l) as [|c r] eqn:E; [done|]. unfold chr_eqb.
  destruct (Ascii.eqb_spec c newline) as [->|_]; [|done].
  exfalso. apply Hl. apply elem_of_reverse. rewrite E. by left.
Qed.

(** What was written is what is read: the lines of a template, joined by
    newlines, written, read back and freed of their newlines. *)
Lemma file_round_trip (tl : list str) :
  Forall no_newline tl → last tl ≠ Some [] →
  chomp <$> readlines (py_join [newline] tl) = tl.
Proof.
  intros Hall. induction Hall as [|l tl Hl Hall IH]; [done|].
  intros Hlast. destruct tl as [|l2 tl].
  - simpl. rewrite readlines_last; [|done|by intros ->].
    simpl. by rewrite chomp_no_newline.
  - change (py_join [newline] (l :: l2 :: tl)) with
      (l ++ newline :: py_join [newline] (l2 :: tl)).
    rewrite readlines_line by done. rewrite fmap_cons, chomp_newline.
    f_equal. apply IH. by rewrite last_cons_cons in Hlast.
Qed.

Section Untouched.

Variable dict_repr : gmap string atom → str.
Variable ord : visiting_order.

(** X5. When the session ends with the file as it was written (the
    template joined by newlines), no line of the template holds a
    newline and the last one is not empty, [request_new_items] raises
    the usage error. *)
Theorem unchanged_file_aborts (wi : worksheet_info) (tl : list str) :
  template_lines dict_repr wi = Ok tl →
  Forall no_newline tl → last tl ≠ Some [] →
  request_new_items dict_repr [newline] edit_untouched ord wi =
  Raise (UsageError "No change made; aborting").
Proof.
  intros Ht Hall Hlast. unfold request_new_items. rewrite Ht. simpl.
  unfold form_result, edit_untouched.
  rewrite (file_round_trip tl Hall Hlast). by rewrite decide_True.
Qed.

Lemma py_join_snoc_empty (tl : list str) :
  tl ≠ [] → py_join [newline] (tl ++ [[]]) = py_join [newline] tl ++ [newline].
Proof.
  induction tl as [|l tl IH]; [done|]. intros _. destruct tl as [|l2 tl].
  - simpl. done.
  - change (py_join [newline] ((l :: l2 :: tl) ++ [[]])) with
      (l ++ [newline] ++ py_join [newline] ((l2 :: tl) ++ [[]])).
    rewrite IH by done.
    change (py_join [newline] (l :: l2 :: tl)) with
      (l ++ [newline] ++ py_join [newline] (l2 :: tl)).
    by rewrite <- !app_assoc.
Qed.

Lemma readlines_terminated (tl : list str) :
  Forall no_newline tl → tl ≠ [] →
  chomp <$> readlines (py_join [newline] tl ++ [newline]) = tl.
Proof.
  intros Hall. induction Hall as [|l tl Hl Hall IH]; [done|]. intros _.
  destruct tl as [|l2 tl].
  - simpl. rewrite readlines_line by done. simpl. by rewrite chomp_newline.
  - change (py_join [newline] (l :: l2 :: tl)) with
      (l ++ newline :: py_join [newline] (l2 :: tl)).
    rewrite <- app_assoc. simpl.
    rewrite readlines_line by done. rewrite fmap_cons, chomp_newline.
    f_equal. by apply IH.
Qed.

(** X6. A template that ends with an empty line is not recognised when
    it comes back as it was written: the empty line at the end of the
    file is no line for [readlines], the lines read are one fewer than
    the lines of the template, and [request_new_items] returns the items
    of the template without its last line instead of raising. *)
Theorem trailing_empty_line_not_detected (wi : worksheet_info) (tl : list str) :
  template_lines dict_repr wi = Ok (tl ++ [[]]) →
  Forall no_newline tl → tl ≠ [] →
  request_new_items dict_repr [newline] edit_untouched ord wi =
  parse_worksheet_form ord tl.
Proof.
  intros Ht Hall Hne. unfold request_new_items. rewrite Ht. simpl.
  unfold form_result, edit_untouched.
  rewrite py_join_snoc_empty, (readlines_terminated tl Hall Hne) by done.
  rewrite decide_False; [done|].
  intros E. apply (f_equal length) in E. rewrite length_app in E. simpl in E. lia.
Qed.

End Untouched.


Lemma unchanged_file_aborts_witness :
  request_new_items (λ _, []) [newline] edit_untouched cpython27_order home =
  Raise (UsageError "No change made; aborting").
Proof.
  apply (unchanged_file_aborts (λ _, []) cpython27_order home
           (py_split newline (header "home") ++ ["Welcome" : str])).
  - vm_compute. reflexivity.
  - apply (bool_decide_unpack _). vm_compute. exact I.
  - vm_compute. discriminate.
Defined.

Lemma trailing_empty_line_not_detected_witness :
  request_new_items (λ _, []) [newline] edit_untouched cpython27_order home_with_blank =
  parse_worksheet_form cpython27_order (py_split newline (header "home") ++ ["Welcome" : str]).
Proof.
  apply (trailing_empty_line_not_detected (λ _, []) cpython27_order home_with_blank
           (py_split newline (header "home") ++ ["Welcome" : str])).
  - vm_compute. reflexivity.
  - apply (bool_decide_unpack _). vm_compute. exact I.
  - vm_compute. discriminate.
Defined.

(** ** The directive found by the expander *)

Lemma bind_nil_elem {A B} (f : A → list B) (l : list A) (x : A) :
  l ≫= f = [] → x ∈ l → f x = [].
Proof.
  intros Hl Hx. destruct (f x) as [|y k] eqn:E; [done|]. exfalso.
  assert (y ∈ l ≫= f) as Hy.
  { apply list_elem_of_bind. exists x. split; [|done]. rewrite E. by left. }
  rewrite Hl in Hy. by apply elem_of_nil in Hy.
Qed.

(** The first success after a greedy run: the run is the longest one
    after which the rest succeeds. *)
Lemma head_spans_bind {B} (p : ascii → bool) (s : str) (f : str * str → list B) (y : B) :
  head (spans p s ≫= f) = Some y →
  ∃ w r, s = w ++ r ∧ all_in p w ∧ head (f (w, r)) = Some y ∧
    ∀ w' r', s = w' ++ r' → all_in p w' → length w < length w' → f (w', r') = [].
Proof.
  revert f. induction s as [|c s IH]; intros f; simpl.
  - rewrite app_nil_r. intros Hy. exists [], []. repeat split; [constructor|done|].
    intros w' r' Hs _ Hlen. symmetry in Hs. apply app_eq_nil in Hs as [-> _].
    simpl in Hlen. lia.
  - destruct (p c) eqn:Hc.
    + rewrite bind_app, list_fmap_bind. simpl. rewrite app_nil_r.
      intros Hy. apply head_app_Some in Hy as [Hy|[Hn Hy]].
      * apply IH in Hy as (w & r & -> & Hw & Hy & Hlong).
        exists (c :: w), r. repeat split; [by constructor|done|].
        intros w' r' Hs Hw' Hlen. destruct w' as [|c' w']; [simpl in Hlen; lia|].
        injection Hs as <- Hs. inversion Hw'; subst.
        apply (Hlong w' r'); [done|done|simpl in Hlen; lia].
      * exists [], (c :: s). repeat split; [constructor|done|].
        intros w' r' Hs Hw' Hlen. destruct w' as [|c' w']; [simpl in Hlen; lia|].
        injection Hs as <- Hs. inversion Hw'; subst.
        assert (spans p (w' ++ r') ≫= f ∘ (λ wr, (c :: wr.1, wr.2)) = []) as Hnil.
        { by destruct (spans p (w' ++ r') ≫= _). }
        apply (bind_nil_elem _ _ (w', r')) in Hnil; [done|].
        by apply elem_of_spans.
    + simpl. rewrite app_nil_r. intros Hy. exists [], (c :: s).
      repeat split; [constructor|done|].
      intros w' r' Hs Hw' Hlen. destruct w' as [|c' w']; [simpl in Hlen; lia|].
      injection Hs as <- Hs. inversion Hw'; subst. congruence.
Qed.

Lemma head_Star_Seq (d : bool) (cs : cset) (r2 : regex) (st y : mstate) :
  head (m d (Star cs ∙ r2) st) = Some y →
  ∃ w r, remaining st = w ++ r ∧ all_in (cset_mem d cs) w ∧
    head (m d r2 (MState (consumed st ++ w) r (caps st))) = Some y ∧
    ∀ w' r', remaining st = w' ++ r' → all_in (cset_mem d cs) w' →
      length w < length w' →
      m d r2 (MState (consumed st ++ w') r' (caps st)) = [].
Proof.
  unfold m; fold m. rewrite list_fmap_bind. intros Hy.
  apply head_spans_bind in Hy as (w & r & Hs & Hw & Hy & Hlong).
  exists w, r. repeat split; try done.
Qed.

(** A display directive at the point where the matcher stands. *)
Lemma display_directive_here (pre mode post : str) :
  mode ∈ display_modes →
  MState (pre ++ "% display " ++ mode ++ post) [] [(1, mode)] ∈
    m true (BUNDLE_DISPLAY_DIRECTIVE ∙ Star CDot)
      (MState pre ("% display " ++ mode ++ post) []).
Proof.
  intros Hmode. unfold BUNDLE_DISPLAY_DIRECTIVE, DIRECTIVE_PREFIX.
  eapply m_Seq_intro.
  { eapply m_Seq_intro; [by apply (m_Lit_intro _ "%" (" display " ++ mode ++ post))|].
    eapply m_Seq_intro; [by apply (m_Lit_intro _ " display " (mode ++ post))|].
    apply m_Group_intro. simpl.
    assert (MState (((pre ++ "%") ++ " display ") ++ mode) post [] ∈
            m true (Alt (Lit "table") (Alt (Lit "default") (Lit "inline")))
              (MState ((pre ++ "%") ++ " display ") (mode ++ post) [])) as H.
    { unfold display_modes in Hmode.
      rewrite !elem_of_cons, elem_of_nil in Hmode.
      destruct Hmode as [->|[->|[->|[]]]].
      - apply elem_m_Alt. left. by apply (m_Lit_intro _ "table" post (MState _ _ _)).
      - apply elem_m_Alt. right. apply elem_m_Alt. left.
        by apply (m_Lit_intro _ "default" post (MState _ _ _)).
      - apply elem_m_Alt. right. apply elem_m_Alt. right.
        by apply (m_Lit_intro _ "inline" post (MState _ _ _)). }
    exact H. }
  unfold set_group. simpl. rewrite drop_app_length.
  apply elem_m_Star. exists post, []. simpl.
  split; [by rewrite app_nil_r|]. split; [apply all_in_dotall|].
  f_equal. by rewrite <- !app_assoc.
Qed.

(** A display directive somewhere in the text is a match of the search
    pattern. *)
Lemma display_expr_found (pre mode post : str) :
  mode ∈ display_modes →
  is_Some (re_match MATCH_DISPLAY_EXPR (pre ++ "% display " ++ mode ++ post)).
Proof.
  intros Hmode.
  apply (re_match_exists _ _
           (MState (pre ++ "% display " ++ mode ++ post) [] [(1, mode)])).
  cbn [flag_dotall pattern MATCH_DISPLAY_EXPR re_compile_DOTALL].
  apply elem_m_Seq. exists (MState pre ("% display " ++ mode ++ post) []). split.
  - by apply (m_Star_intro true CDot pre _ (MState [] _ [])); [|apply all_in_dotall].
  - by apply display_directive_here.
Qed.

Lemma display_modes_prefix_free (mode mode' post post' : str) :
  mode ∈ display_modes → mode' ∈ display_modes →
  mode ++ post = mode' ++ post' → mode = mode'.
Proof.
  unfold display_modes. rewrite !elem_of_cons, !elem_of_nil.
  intros [->|[->|[->|[]]]] [->|[->|[->|[]]]]; done.
Qed.

Lemma display_expr_mode (text : str) (mo : match_obj) :
  re_match MATCH_DISPLAY_EXPR text = Some mo →
  ∃ w mode rest : str, text = w ++ "% display " ++ mode ++ rest ∧
    mode ∈ display_modes ∧ group mo 1 = Ok (AStr mode) ∧
    ∀ w' r', text = w' ++ r' → length w < length w' →
      m true (BUNDLE_DISPLAY_DIRECTIVE ∙ Star CDot) (MState w' r' []) = [].
Proof.
  intros (st & Hst & ->)%re_match_Some.
  unfold MATCH_DISPLAY_EXPR, re_compile_DOTALL in Hst.
  cbn [flag_dotall pattern] in Hst.
  apply head_Star_Seq in Hst as (w & r & Hs & _ & Hst & Hlong).
  simpl in Hs, Hst, Hlong. subst text.
  apply head_elem_of in Hst.
  unfold BUNDLE_DISPLAY_DIRECTIVE, DIRECTIVE_PREFIX in Hst.
  minv.
  all: [> exists w, "table" | exists w, "default" | exists w, "inline"].
  all: eexists; (split; [reflexivity|]).
  all: split; [unfold display_modes; set_solver|].
  all: split; [reflexivity|].
  all: intros w' r' Hs Hlen; apply (Hlong w' r' Hs); [apply all_in_dotall|done].
Qed.

(** X7. The expander looks for a display directive anywhere in the text
    of a directive, not only at its start: a text that holds
    [% display <mode>] expands to the record of a display directive,
    whose markup is the whole text and which has no name and no path. *)
Theorem display_found_anywhere (pre mode post : str) :
  mode ∈ display_modes →
  ∃ (d : gmap string atom) (mode' : str),
    expand_worksheet_item_info (PStr (pre ++ "% display " ++ mode ++ post))
      "directive" = Ok (PDict d) ∧
    d !! "directive" = Some (AStr "display") ∧
    d !! "display" = Some (AStr mode') ∧ mode' ∈ display_modes ∧
    d !! "markup" = Some (AStr (pre ++ "% display " ++ mode ++ post)) ∧
    d !! "name" = None ∧ d !! "path" = None.
Proof.
  intros Hmode. rewrite expand_directive_unfold.
  destruct (display_expr_found pre mode post Hmode) as [mo Hmo]. rewrite Hmo.
  destruct (display_expr_mode _ _ Hmo) as (w & mode' & rest & _ & Hmode' & H1 & _).
  rewrite H1, group_0, (display_expr_whole _ _ Hmo). simpl.
  eexists _, mode'. split; [reflexivity|]. by vm_compute.
Qed.

Lemma display_found_anywhere_witness :
  ∃ (d : gmap string atom) (mode' : str),
    expand_worksheet_item_info (PStr ("see " ++ "% display " ++ "table" ++ " below"))
      "directive" = Ok (PDict d) ∧
    d !! "directive" = Some (AStr "display") ∧
    d !! "display" = Some (AStr mode') ∧ mode' ∈ display_modes ∧
    d !! "markup" = Some (AStr ("see " ++ "% display " ++ "table" ++ " below")) ∧
    d !! "name" = None ∧ d !! "path" = None.
Proof.
  apply (display_found_anywhere "see " "table" " below").
  apply (bool_decide_unpack _). vm_compute. exact I.
Defined.

(** X8. When the text holds several display directives, the last one
    decides: with no [%] after [% display <mode>], the display entry of
    the record is that mode. *)
Theorem last_display_wins (pre mode post : str) :
  mode ∈ display_modes → "%"%char ∉ post →
  ∃ d : gmap string atom,
    expand_worksheet_item_info (PStr (pre ++ "% display " ++ mode ++ post))
      "directive" = Ok (PDict d) ∧
    d !! "display" = Some (AStr mode).
Proof.
  intros Hmode Hpost. rewrite expand_directive_unfold.
  destruct (display_expr_found pre mode post Hmode) as [mo Hmo]. rewrite Hmo.
  destruct (display_expr_mode _ _ Hmo) as (w & mode' & rest & Hs & Hmode' & H1 & Hlong).
  rewrite H1, group_0. simpl. eexists. split; [reflexivity|].
  assert (mode' = mode) as ->; [|by vm_compute].
  assert ("%"%char ∉ " display " ++ mode ++ post) as Hno.
  { apply not_elem_of_app. split; [by apply (bool_decide_unpack _)|].
    apply not_elem_of_app. split; [|done].
    unfold display_modes in Hmode. rewrite !elem_of_cons, elem_of_nil in Hmode.
    destruct Hmode as [->|[->|[->|[]]]]; by apply (bool_decide_unpack _). }
  change (pre ++ "% display " ++ mode ++ post) with
    (pre ++ "%"%char :: (" display " ++ mode ++ post)) in Hs.
  change (w ++ "% display " ++ mode' ++ rest) with
    (w ++ "%"%char :: (" display " ++ mode' ++ rest)) in Hs.
  apply app_eq_inv in Hs as [(k & Hw & Hk)|(k & Hw & Hk)].
  - destruct k as [|c k]; simpl in Hk.
    + injection Hk as Hk. by eapply display_modes_prefix_free.
    + exfalso.
      pose proof (display_directive_here pre mode post Hmode) as Hin.
      rewrite (Hlong pre ("% display " ++ mode ++ post)) in Hin.
      * by apply elem_of_nil in Hin.
      * done.
      * rewrite Hw, length_app. simpl. lia.
  - destruct k as [|c k]; simpl in Hk.
    + injection Hk as Hk. symmetry. by eapply display_modes_prefix_free.
    + injection Hk as <- Hk. exfalso. apply Hno.
      change (" display " ++ mode ++ post) with
        (" "%char :: "display " ++ mode ++ post).
      simpl. rewrite Hk. apply elem_of_app. right. by left.
Qed.

Lemma last_display_wins_witness :
  ∃ d : gmap string atom,
    expand_worksheet_item_info
      (PStr ("% display table, " ++ "% display " ++ "inline" ++ " at last"))
      "directive" = Ok (PDict d) ∧
    d !! "display" = Some (AStr "inline").
Proof.
  apply (last_display_wins "% display table, " "inline" " at last").
  - apply (bool_decide_unpack _). vm_compute. exact I.
  - apply (bool_decide_unpack _). vm_compute. exact I.
Defined.

(** ** What the classifier builds *)

(** A match of a pattern without [$] is a match on the text cut after
    it, and on any text that goes on in another way. *)
Lemma m_truncate (d : bool) (r : regex) (st st' : mstate) :
  no_eol r = true → st' ∈ m d r st →
  ∃ w, remaining st = w ++ remaining st' ∧
    ∀ t, MState (consumed st') t (caps st') ∈
           m d r (MState (consumed st) (w ++ t) (caps st)).
Proof.
  revert st st'. induction r; intros st st' Hr H; simpl in Hr.
  - apply elem_m_Bol in H as [H0 ->]. exists []. split; [done|]. intros t.
    by apply elem_m_Bol.
  - done.
  - apply elem_m_Lit in H as (s' & Hs & ->). exists w. split; [done|]. intros t.
    apply elem_m_Lit. by exists t.
  - apply elem_m_Star in H as (w' & s' & Hs & Hw & ->). exists w'.
    split; [done|]. intros t. apply elem_m_Star. by exists w', t.
  - apply elem_m_Plus in H as (w' & s' & Hs & Hw & Hne & ->). exists w'.
    split; [done|]. intros t. apply elem_m_Plus. by exists w', t.
  - apply elem_m_Group in H as (st1 & H1 & ->).
    destruct (IHr _ _ Hr H1) as (w & Hs & Hin). exists w. split; [done|].
    intros t. apply elem_m_Group. eexists. split; [apply (Hin t)|]. done.
  - apply elem_m_Opt in H as [H| ->].
    + destruct (IHr _ _ Hr H) as (w & Hs & Hin). exists w. split; [done|].
      intros t. apply elem_m_Opt. by left.
    + exists []. split; [done|]. intros t. apply elem_m_Opt. by right.
  - apply andb_true_iff in Hr as [Hr1 Hr2]. apply elem_m_Alt in H as [H|H].
    + destruct (IHr1 _ _ Hr1 H) as (w & Hs & Hin). exists w. split; [done|].
      intros t. apply elem_m_Alt. by left.
    + destruct (IHr2 _ _ Hr2 H) as (w & Hs & Hin). exists w. split; [done|].
      intros t. apply elem_m_Alt. by right.
  - apply andb_true_iff in Hr as [Hr1 Hr2].
    apply elem_m_Seq in H as (st1 & H1 & H2).
    destruct (IHr1 _ _ Hr1 H1) as (w1 & Hs1 & Hin1).
    destruct (IHr2 _ _ Hr2 H2) as (w2 & Hs2 & Hin2).
    exists (w1 ++ w2). split; [by rewrite Hs1, Hs2, app_assoc|].
    intros t. apply elem_m_Seq. eexists. split; [|apply (Hin2 t)].
    rewrite <- app_assoc. apply Hin1.
Qed.

(** What a pattern without [$] matched, it matches when the text ends
    there. *)
Lemma re_match_truncate (c : compiled) (s : str) (mo : match_obj) :
  no_eol (pattern c) = true → re_match c s = Some mo →
  is_Some (re_match c (mo_whole mo)).
Proof.
  intros Hr (st & Hst & ->)%re_match_elem. simpl.
  destruct (m_truncate _ _ _ _ Hr Hst) as (w & Hs & Hin). simpl in Hs, Hin.
  apply m_input in Hst. simpl in Hst.
  assert (w = consumed st) as ->.
  { rewrite Hs in Hst. by apply app_inv_tail in Hst. }
  specialize (Hin []). rewrite app_nil_r in Hin.
  by eapply re_match_exists.
Qed.

Lemma display_line_expr (line : str) (mo : match_obj) :
  re_match (re_compile BUNDLE_DISPLAY_DIRECTIVE) line = Some mo →
  is_Some (re_match MATCH_DISPLAY_EXPR (mo_whole mo)).
Proof.
  intros (st & Hst & ->)%re_match_elem.
  cbn [flag_dotall pattern re_compile] in Hst.
  unfold BUNDLE_DISPLAY_DIRECTIVE, DIRECTIVE_PREFIX in Hst.
  minv; by eexists.
Qed.

Section Parsed.

Variable dict_repr : gmap string atom → str.
Variable ord : visiting_order.

(** X9. The directive items that the classifier builds never lead to
    the record without markup: the value of such an item is a text in
    which the expander finds a directive, its record has the text as
    markup, and the renderer prints the text back. *)
Theorem parsed_directive_renders (s : str) (uuid value : atom) :
  parse_worksheet_form ord [s] = Ok [(uuid, value, "directive" : str)] →
  ∃ (text : str) (d : gmap string atom),
    value = AStr text ∧
    expand_worksheet_item_info (PStr text) "directive" = Ok (PDict d) ∧
    d !! "markup" = Some (AStr text) ∧
    ∀ (name : str) (bundle_info : option (gmap string atom)),
      get_worksheet_lines dict_repr
        (WorksheetInfo name [(bundle_info, PDict d, "directive" : str)]) =
      Ok [PStr text].
Proof.
  intros Hp. destruct (parse_single_cases ord s) as [H|(it & H & Hit)];
    rewrite H in Hp; [done|]. injection Hp as ->.
  destruct Hit as [(u & o & [=])|[(mo & [= _ ->] & Hmo)|[(v & [=])|[(v & [=])|[=]]]]].
  exists (mo_whole mo).
  destruct (expand_directive_markup (mo_whole mo)) as (d & Hd & Hm).
  { destruct Hmo as [Hmo|Hmo].
    - left. by eapply display_line_expr.
    - right. apply field_line_expr. by apply (re_match_truncate (re_compile BUNDLE_DISPLAY_FIELD) _ _ eq_refl Hmo). }
  exists d. repeat split; [done|done|].
  intros name bundle_info. unfold get_worksheet_lines. simpl.
  unfold getitem. by rewrite Hm.
Qed.

End Parsed.

Lemma parsed_directive_renders_witness :
  ∃ (text : str) (d : gmap string atom),
    AStr "% speed: metadata/time" = AStr text ∧
    expand_worksheet_item_info (PStr text) "directive" = Ok (PDict d) ∧
    d !! "markup" = Some (AStr text) ∧
    ∀ (name : str) (bundle_info : option (gmap string atom)),
      get_worksheet_lines (λ _, [])
        (WorksheetInfo name [(bundle_info, PDict d, "directive" : str)]) =
      Ok [PStr text].
Proof.
  apply (parsed_directive_renders (λ _, []) cpython27_order "  % speed: metadata/time  " ANone).
  vm_compute. reflexivity.
Defined.

Lemma strip_trimmed (s : str) : trimmed (strip s).
Proof. apply strip_idemp. Qed.

Lemma well_formed_single (ord : visiting_order) (s : str) (its : list item) :
  parse_worksheet_form ord [s] = Ok its → Forall well_formed its.
Proof.
  intros Hp. destruct (parse_single_cases ord s) as [H|(it & H & Hit)];
    rewrite H in Hp; injection Hp as <-; [constructor|].
  constructor; [|constructor].
  destruct Hit as [(u & o & ->)|[(mo & -> & _)|[(v & ->)|[(v & ->)| ->]]]];
    unfold well_formed, item_types.
  - split; [set_solver|]. split; [|done].
    split; [|done]. intros _. exists (strip u). split; [done|apply strip_trimmed].
  - split; [set_solver|]. split; [|by eauto].
    split; [done|]. by intros (u & [=] & _).
  - split; [set_solver|]. split; [|by eauto].
    split; [done|]. by intros (u & [=] & _).
  - split; [set_solver|]. split; [|by eauto].
    split; [done|]. by intros (u & [=] & _).
  - split; [set_solver|]. split; [|by eauto].
    split; [done|]. by intros (u & [=] & _).
Qed.

(** X10. Every item that [parse_worksheet_form] returns is well formed:
    its kind is one of bundle, directive, title, description and markup;
    it has a [bundle_uuid], without blanks around it, exactly when it is
    a bundle item; and its value is a string unless it is a bundle
    item. *)
Theorem parsed_items_well_formed (ord : visiting_order) (form : list str) :
  ∃ items : list item,
    parse_worksheet_form ord form = Ok items ∧ Forall well_formed items.
Proof.
  induction form as [|line form (items & IH & Hall)].
  - exists []. split; [done|constructor].
  - rewrite parse_cons, IH.
    destruct (parse_single_cases ord line) as [H|(it & H & _)].
    + rewrite H. simpl. by exists items.
    + pose proof (well_formed_single ord line [it] H) as Hwf. rewrite H. simpl.
      exists (it :: items). split; [done|].
      inversion Hwf; subst. by constructor.
Qed.

(** ** The form that nobody edits *)

Lemma parse_app_ok (ord : visiting_order) (form1 form2 : list str) (its1 its2 : list item) :
  parse_worksheet_form ord form1 = Ok its1 → parse_worksheet_form ord form2 = Ok its2 →
  parse_worksheet_form ord (form1 ++ form2) = Ok (its1 ++ its2).
Proof.
  revert its1. induction form1 as [|line form1 IH]; intros its1 H1 H2.
  - injection H1 as <-. done.
  - simpl. rewrite parse_cons in H1 |- *.
    destruct (parse_worksheet_form ord [line]) as [its|e]; [|done]. simpl in *.
    destruct (parse_worksheet_form ord form1) as [its'|e]; [|done]. simpl in *.
    injection H1 as <-. rewrite (IH its' eq_refl H2). simpl.
    by rewrite app_assoc.
Qed.

Lemma as_strs_strs (lines : list str) : as_strs (PStr <$> lines) = Ok lines.
Proof.
  induction lines as [|l lines IH]; [done|].
  change (as_strs (PStr <$> l :: lines)) with
    (ls ← as_strs (PStr <$> lines); Ok (l :: ls)).
  by rewrite IH.
Qed.

Section Unedited.

Variable dict_repr : gmap string atom → str.
Variable ord : visiting_order.

(** The lines of a plain item give back the item, as
    [get_current_items] reads it off the worksheet. *)
Lemma plain_item_lines (it : ws_item) :
  plain_item it →
  ∃ (lines : list str) (parsed : item),
    item_lines dict_repr it = Ok (PStr <$> lines) ∧
    parse_worksheet_form ord lines = Ok [parsed] ∧
    get_current_items_loop [it] = Ok [item_val parsed].
Proof.
  intros [s Ht Hc Hr|v Hne Ht Hn Hf|v Hne Ht Hn Hf|d v u Hd Htv Htu Hnv Hnu Hv Hu].
  - exists [s], (ANone, AStr s, "markup" : str). split; [done|].
    split; [by apply parse_markup_line|done].
  - exists ["% title: " ++ v], (ANone, AStr v, "title" : str). split; [done|].
    split; [by apply parse_title_line|done].
  - exists ["% description: " ++ v], (ANone, AStr v, "description" : str).
    split; [done|]. split; [by apply parse_description_line|done].
  - pose proof (parse_bundle_line ord v u Htv Htu Hnv Hnu Hv Hu) as Hp.
    destruct (decide (d !! "bundle_type" = None)) as [Hb|Hb].
    + exists ["// The following bundle reference is broken:" : str;
              "[" ++ v ++ "]{" ++ u ++ "}"], (AStr u, AStr v, "bundle" : str).
      split; [|split].
      * simpl. unfold getitem. rewrite Hd. simpl. by rewrite decide_True.
      * rewrite parse_comment_cons; [done|by vm_compute].
      * simpl. unfold getitem. by rewrite Hd.
    + exists ["[" ++ v ++ "]{" ++ u ++ "}"], (AStr u, AStr v, "bundle" : str).
      split; [|split].
      * simpl. unfold getitem. rewrite Hd. simpl. by rewrite decide_False.
      * done.
      * simpl. unfold getitem. by rewrite Hd.
Qed.

Lemma get_current_items_cons (it : ws_item) (rest : list ws_item) :
  get_current_items_loop (it :: rest) =
  (its1 ← get_current_items_loop [it];
   its2 ← get_current_items_loop rest;
   Ok (its1 ++ its2)).
Proof.
  destruct it as [[bundle_info value] type]. simpl.
  destruct bundle_info as [d|]; simpl.
  - destruct (getitem d "uuid"); simpl; [|done].
    by destruct (get_current_items_loop rest).
  - by destruct (get_current_items_loop rest).
Qed.

Lemma plain_items_lines (items : list ws_item) :
  Forall plain_item items →
  ∃ (lines : list str) (parsed : list item),
    get_worksheet_lines_items dict_repr items = Ok (PStr <$> lines) ∧
    parse_worksheet_form ord lines = Ok parsed ∧
    get_current_items_loop items = Ok (item_val <$> parsed).
Proof.
  induction 1 as [|it items Hit _ (lines & parsed & Hl & Hp & Hc)].
  - by exists [], [].
  - destruct (plain_item_lines it Hit) as (lines1 & parsed1 & Hl1 & Hp1 & Hc1).
    exists (lines1 ++ lines), (parsed1 :: parsed). split; [|split].
    + simpl. rewrite Hl1, Hl. simpl. by rewrite fmap_app.
    + by apply (parse_app_ok ord lines1 lines [parsed1] parsed).
    + rewrite get_current_items_cons, Hc1, Hc. done.
Qed.

(** X11. The form of a worksheet made of plain items, header included,
    reads back as the items that [get_current_items] gives for the
    worksheet: the header and the remark on a broken reference are
    comments, and every other line gives the item it was written
    from. *)
Theorem unedited_form_gives_current_items (wi : worksheet_info) :
  no_newline (ws_name wi) → Forall plain_item (ws_items wi) →
  ∃ (tl : list str) (items : list item),
    template_lines dict_repr wi = Ok tl ∧
    parse_worksheet_form ord tl = Ok items ∧
    get_current_items wi = Ok (item_val <$> items).
Proof.
  intros Hn Hall.
  destruct (plain_items_lines _ Hall) as (lines & parsed & Hl & Hp & Hc).
  exists (py_split newline (header (ws_name wi)) ++ lines), parsed.
  split; [|split; [|done]].
  - unfold template_lines, get_worksheet_lines. rewrite Hl. simpl.
    by rewrite <- fmap_app, as_strs_strs.
  - rewrite (header_lines _ Hn). simpl.
    rewrite parse_comment_cons; [|apply comment_prefix].
    by rewrite !parse_comment_cons by (by vm_compute).
Qed.

End Unedited.

Lemma unedited_form_gives_current_items_witness :
  ∃ (tl : list str) (items : list item),
    template_lines (λ _, []) report = Ok tl ∧
    parse_worksheet_form cpython27_order tl = Ok items ∧
    get_current_items report = Ok (item_val <$> items).
Proof.
  apply (unedited_form_gives_current_items (λ _, []) cpython27_order report).
  - apply (bool_decide_unpack _). vm_compute. exact I.
  - repeat apply Forall_cons_2; [| | | |apply Forall_nil_2].
    + apply plain_title; [done|by vm_compute| |by vm_compute].
      apply (bool_decide_unpack _). vm_compute. exact I.
    + apply plain_markup; by vm_compute.
    + apply (plain_bundle _ "first run" "0x1f");
        [by vm_compute|by vm_compute|by vm_compute|..];
        apply (bool_decide_unpack _); vm_compute; exact I.
    + apply (plain_bundle _ "second run" "0x2a");
        [by vm_compute|by vm_compute|by vm_compute|..];
        apply (bool_decide_unpack _); vm_compute; exact I.
Defined.

(** The lines and the items of [report]: the remark on the broken
    reference gives no item. *)
Example report_form :
  get_worksheet_lines (λ _, []) report =
  Ok [PStr "% title: Results"; PStr "The runs of this week.";
      PStr "[first run]{0x1f}";
      PStr "// The following bundle reference is broken:";
      PStr "[second run]{0x2a}"] ∧
  parse_worksheet_form cpython27_order
    ["% title: Results" : str; "The runs of this week." : str;
     "[first run]{0x1f}" : str;
     "// The following bundle reference is broken:" : str;
     "[second run]{0x2a}" : str] =
  Ok [(ANone, AStr "Results", "title" : str);
      (ANone, AStr "The runs of this week.", "markup" : str);
      (AStr "0x1f", AStr "first run", "bundle" : str);
      (AStr "0x2a", AStr "second run", "bundle" : str)].
Proof. vm_compute. done. Qed.

(** A title that the field grammar takes comes back as a title only
    where the title grammar is tried before the field grammar. *)
Example title_read_as_field :
  get_worksheet_lines (λ _, [])
    (WorksheetInfo "w" [(None, PStr "image/logo.png", "title" : str)]) =
  Ok [PStr "% title: image/logo.png"] ∧
  parse_worksheet_form literal_order ["% title: image/logo.png" : str] =
  Ok [(ANone, AStr "% title: image/logo.png", "directive" : str)] ∧
  parse_worksheet_form cpython27_order ["% title: image/logo.png" : str] =
  Ok [(ANone, AStr "image/logo.png", "title" : str)].
Proof. vm_compute. done. Qed.

(** ** Lines that end with a carriage return and a newline *)

Lemma strip_snoc_space (l : str) (c : ascii) :
  isspace c = true → strip (l ++ [c]) = strip l.
Proof.
  intros Hc. unfold strip. destruct (lstrip l) as [|x k] eqn:E.
  - rewrite lstrip_app_drop by done. simpl. by rewrite Hc.
  - rewrite lstrip_app_keep by (by rewrite E). rewrite E.
    unfold rstrip. rewrite reverse_app. simpl. by rewrite Hc.
Qed.

Lemma parse_strip_eq (ord : visiting_order) (form1 form2 : list str) :
  Forall2 (λ a b, strip a = strip b) form1 form2 →
  parse_worksheet_form ord form1 = parse_worksheet_form ord form2.
Proof.
  induction 1 as [|a b form1 form2 Hab _ IH]; [done|].
  rewrite (parse_cons ord a), (parse_cons ord b), IH, !parse_single.
  unfold parse_line. by rewrite Hab.
Qed.

Lemma readlines_crlf (tl : list str) :
  Forall no_newline tl → last tl ≠ Some [] →
  ∃ lines : list str,
    chomp <$> readlines (py_join crlf tl) = lines ∧
    Forall2 (λ a b, strip a = strip b) lines tl ∧
    (2 ≤ length tl → lines ≠ tl).
Proof.
  intros Hall. induction Hall as [|l tl Hl Hall IH]; intros Hlast.
  - exists []. repeat split; [constructor|simpl; lia].
  - destruct tl as [|l2 tl].
    + exists [l]. simpl. rewrite readlines_last; [|done|by intros ->].
      simpl. rewrite chomp_no_newline by done.
      repeat split; [by repeat constructor|simpl; lia].
    + rewrite last_cons_cons in Hlast.
      destruct (IH Hlast) as (lines & Hlines & Hstrip & _).
      exists ((l ++ [ascii_of_nat 13]) :: lines).
      change (py_join crlf (l :: l2 :: tl)) with
        (l ++ crlf ++ py_join crlf (l2 :: tl)).
      change (l ++ crlf ++ py_join crlf (l2 :: tl)) with
        (l ++ [ascii_of_nat 13] ++ newline :: py_join crlf (l2 :: tl)).
      rewrite app_assoc, readlines_line.
      2:{ apply no_newline_app; [done|]. by apply (bool_decide_unpack _). }
      rewrite fmap_cons, chomp_newline, Hlines.
      repeat split.
      * constructor; [|done]. by apply strip_snoc_space.
      * intros _ [= E _]. apply (f_equal length) in E.
        rewrite length_app in E. simpl in E. lia.
Qed.

Lemma py_split_length_app (sep : ascii) (a b : str) :
  length (py_split sep b) ≤ length (py_split sep (a ++ b)).
Proof.
  induction a as [|c a IH]; simpl; [done|].
  destruct (chr_eqb c sep); simpl; [lia|].
  destruct (py_split sep (a ++ b)); simpl in *; lia.
Qed.

Lemma as_strs_length (lines : list pyval) (tl : list str) :
  as_strs lines = Ok tl → length tl = length lines.
Proof.
  revert tl. induction lines as [|l lines IH]; intros tl; simpl.
  - by intros [= <-].
  - destruct l; try done. destruct (as_strs lines) as [ls|]; [|done]. simpl.
    intros [= <-]. simpl. by rewrite (IH ls).
Qed.

Section Windows.

Variable dict_repr : gmap string atom → str.
Variable ord : visiting_order.

(** The template has the lines of the header at least. *)
Lemma template_lines_length (wi : worksheet_info) (tl : list str) :
  template_lines dict_repr wi = Ok tl → 4 ≤ length tl.
Proof.
  assert (4 ≤ length (py_split newline (header (ws_name wi)))) as Hh.
  { pose proof (py_split_length_app newline
      ("// Full-text editing for worksheet " ++ ws_name wi)
      (". This file is basically Markdown, except" ++ [newline] ++
       "// that is used for comments and that lines of the form {bundle_spec} are" ++ [newline] ++
       "// resolved as links to CodaLab bundles. You can even preface the curly braces" ++ [newline] ++
       "// with bracketed help text, like so: [some explanatory text]{bundle_spec}")) as H.
    rewrite <- app_assoc in H. exact H. }
  unfold template_lines. cbv zeta.
  remember (py_split newline (header (ws_name wi))) as hl.
  destruct (get_worksheet_lines dict_repr wi) as [rendered|]; [|done]. simpl.
  intros ->%as_strs_length. rewrite length_app, length_fmap. lia.
Qed.

(** X12. Where [os.linesep] is a carriage return and a newline, the
    check for an unchanged form never succeeds: the file is read back
    in binary mode and only the newline is cut off its lines, so every
    line but the last comes back with a carriage return at its end and
    differs from the template. [request_new_items] then returns the
    items of the template instead of raising the usage error. *)
Theorem crlf_unchanged_file_not_detected (wi : worksheet_info) (tl : list str) :
  template_lines dict_repr wi = Ok tl →
  Forall no_newline tl → last tl ≠ Some [] →
  request_new_items dict_repr crlf edit_untouched ord wi = parse_worksheet_form ord tl.
Proof.
  intros Ht Hall Hlast. unfold request_new_items. rewrite Ht. simpl.
  unfold form_result, edit_untouched.
  destruct (readlines_crlf tl Hall Hlast) as (lines & -> & Hstrip & Hne).
  rewrite decide_False.
  - by apply parse_strip_eq.
  - apply Hne. pose proof (template_lines_length wi tl Ht). lia.
Qed.

End Windows.

Lemma crlf_unchanged_file_not_detected_witness :
  request_new_items (λ _, []) crlf edit_untouched cpython27_order home =
  parse_worksheet_form cpython27_order (py_split newline (header "home") ++ ["Welcome" : str]).
Proof.
  apply (crlf_unchanged_file_not_detected (λ _, []) cpython27_order home
           (py_split newline (header "home") ++ ["Welcome" : str])).
  - vm_compute. reflexivity.
  - apply (bool_decide_unpack _). vm_compute. exact I.
  - vm_compute. discriminate.
Defined.

(** ** The current items *)

(** X13. [get_current_items] raises nothing but [KeyError] on uuid, and
    raises it exactly when some item has a [bundle_info] without uuid,
    whatever the kind of the item; otherwise it returns one triple for
    each item, with the item's value and type. *)
Theorem get_current_items_key_error (wi : worksheet_info) :
  (Forall has_uuid (ws_items wi) ∧
   ∃ items, get_current_items wi = Ok items ∧
     Forall2 (λ it out, out.1.2 = it.1.2 ∧ out.2 = it.2) (ws_items wi) items) ∨
  (¬ Forall has_uuid (ws_items wi) ∧
   get_current_items wi = Raise (KeyError "uuid")).
Proof.
  unfold get_current_items. induction (ws_items wi) as [|it items IH].
  - left. split; [constructor|]. exists []. split; [done|constructor].
  - destruct it as [[bundle_info value] type].
    assert (has_uuid (bundle_info, value, type) ∨
            ∃ d, bundle_info = Some d ∧ d !! "uuid" = None) as [Hit|(d & -> & Hd)].
    { unfold has_uuid. simpl. destruct bundle_info as [d|]; [|by left].
      destruct (d !! "uuid") eqn:E; [left; by eexists|right; by exists d]. }
    + assert (∃ uuid, match bundle_info with
                      | None => Ok (PNone, value, type)
                      | Some bundle_info =>
                          uuid ← getitem bundle_info "uuid";
                          Ok (atom_val uuid, value, type)
                      end = Ok (uuid, value, type)) as [uuid Hu].
      { unfold has_uuid in Hit. simpl in Hit. destruct bundle_info as [d|].
        - destruct Hit as [a Ha]. unfold getitem. rewrite Ha. by eexists.
        - by eexists. }
      simpl. rewrite Hu. simpl.
      destruct IH as [[Hall [out [Hloop Hout]]]|[Hnot Hloop]]; rewrite Hloop.
      * left. split; [by constructor|]. eexists. split; [done|].
        by constructor.
      * right. split; [|done]. intros H. apply Hnot. by inversion H.
    + right. split.
      * intros H. inversion H as [|?? Hh ?]; subst.
        unfold has_uuid in Hh. simpl in Hh. destruct Hh as [a Ha]. congruence.
      * simpl. unfold getitem. by rewrite Hd.
Qed.
